(** * xml_to_csv: route XML files to a main CSV and a waypoint detail TSV

    A shallow embedding of [xml_to_csv.py].  Python values are modelled as
    follows.

    - [str] is [string]: a sequence of characters with codes 0..255 (the
      Latin-1 range of Unicode); [str.isspace] is restricted to that range.
    - [float] is the kernel's binary64 [PrimFloat.float]; [+], [-], [*], [/]
      are its IEEE operations.
    - What the script gets from the interpreter and its libraries
      ([float()], [round], [**], the [math] module, [glob], [pathlib],
      [ElementTree.parse], opening a file for writing) is an interface, the
      record [Runtime]; a call that can raise returns a [Result].
    - An XML element is a tree of tag, text and children.
    - Exceptions are explicit: fallible code returns [Result]. *)

From Stdlib Require Import List String Ascii ZArith Lia Bool PeanoNat.
From Stdlib Require Import PrimFloat.
Import ListNotations.

Set Warnings "-register-all,-inexact-float".

Local Open Scope string_scope.
Local Open Scope list_scope.
Local Open Scope nat_scope.

Notation "s +++ t" := (String.append s t) (at level 60, right associativity).

(* ------------------------------------------------------------------ *)
(** ** Exceptions *)

Inductive exn : Type :=
| ParseError (msg : string)     (* xml.etree.ElementTree.ParseError *)
| OSError (msg : string)
| ValueError (msg : string)
| OverflowError (msg : string)
| IndexError (msg : string).

Inductive Result (A : Type) : Type :=
| Ok (a : A)
| Raise (e : exn).

Arguments Ok {A} a.
Arguments Raise {A} e.

Definition bind {A B : Type} (r : Result A) (k : A -> Result B) : Result B :=
  match r with
  | Ok a => k a
  | Raise e => Raise e
  end.

Notation "'let*' x ':=' r 'in' k" := (bind r (fun x => k))
  (at level 10, x pattern, r at level 100, k at level 200).

(* ------------------------------------------------------------------ *)
(** ** Python string operations *)

Module PyStr.

Definition code (c : ascii) : nat := nat_of_ascii c.

(** [str.isspace] on one character, for code points below 256. *)
Definition is_space (c : ascii) : bool :=
  let n := code c in
  ((9 <=? n) && (n <=? 13)) || ((28 <=? n) && (n <=? 32))
  || (n =? 133) || (n =? 160).

Definition is_digit (c : ascii) : bool :=
  let n := code c in (48 <=? n) && (n <=? 57).

Definition digit_val (c : ascii) : Z := Z.of_nat (code c - 48).

Definition is_empty (s : string) : bool :=
  match s with
  | EmptyString => true
  | String _ _ => false
  end.

(** [s.replace(old, new)] for a one-character [old]. *)
Fixpoint replace (old : ascii) (new : string) (s : string) : string :=
  match s with
  | EmptyString => EmptyString
  | String c r =>
      if Ascii.eqb c old then new +++ replace old new r
      else String c (replace old new r)
  end.

Fixpoint lstrip (s : string) : string :=
  match s with
  | EmptyString => EmptyString
  | String c r => if is_space c then lstrip r else s
  end.

Fixpoint rstrip (s : string) : string :=
  match s with
  | EmptyString => EmptyString
  | String c r =>
      let r' := rstrip r in
      if is_space c && is_empty r' then EmptyString else String c r'
  end.

(** [s.strip()] *)
Definition strip (s : string) : string := rstrip (lstrip s).

(** [s.split()]: the maximal runs of non-space characters.  [cur] is the
    run being read. *)
Fixpoint split_ws_from (cur : string) (s : string) : list string :=
  match s with
  | EmptyString => if is_empty cur then [] else [cur]
  | String c r =>
      if is_space c
      then (if is_empty cur then split_ws_from EmptyString r
            else cur :: split_ws_from EmptyString r)
      else split_ws_from (cur +++ String c EmptyString) r
  end.

Definition split_ws (s : string) : list string :=
  split_ws_from EmptyString s.

(** [s.split(sep)] for a one-character [sep]: never the empty list. *)
Fixpoint split_on_from (sep : ascii) (cur : string) (s : string)
  : list string :=
  match s with
  | EmptyString => [cur]
  | String c r =>
      if Ascii.eqb c sep then cur :: split_on_from sep EmptyString r
      else split_on_from sep (cur +++ String c EmptyString) r
  end.

Definition split_on (sep : ascii) (s : string) : list string :=
  split_on_from sep EmptyString s.

(** [sep.join(l)] *)
Fixpoint join (sep : string) (l : list string) : string :=
  match l with
  | [] => EmptyString
  | [x] => x
  | x :: r => x +++ sep +++ join sep r
  end.

End PyStr.

(** [int(s)] for a string in base 10: surrounding white space, an optional
    sign, digits with single underscores between them.  [max_digits] is the
    interpreter's limit on the number of digits (0: no limit, as before
    Python 3.11); a longer literal raises [ValueError]. *)
Fixpoint int_digits (acc : Z) (n : nat) (after_underscore : bool)
  (s : string) : option (Z * nat) :=
  match s with
  | EmptyString => if after_underscore then None else Some (acc, n)
  | String c r =>
      if PyStr.is_digit c
      then int_digits (10 * acc + PyStr.digit_val c) (S n) false r
      else if Ascii.eqb c "_"%char
           then (if after_underscore then None else int_digits acc n true r)
           else None
  end.

Definition int_unsigned (max_digits : nat) (s : string) : option Z :=
  match s with
  | EmptyString => None
  | String c r =>
      if PyStr.is_digit c
      then match int_digits (PyStr.digit_val c) 1 false r with
           | Some (z, n) =>
               if (0 <? max_digits) && (max_digits <? n)
               then None else Some z
           | None => None
           end
      else None
  end.

Definition py_int (max_digits : nat) (s : string) : option Z :=
  match PyStr.strip s with
  | String "+"%char r => int_unsigned max_digits r
  | String "-"%char r => option_map Z.opp (int_unsigned max_digits r)
  | t => int_unsigned max_digits t
  end.

(* ------------------------------------------------------------------ *)
(** ** XML elements and ElementTree paths *)

(** An element as [xml.etree.ElementTree] gives it: [text] is [None] when
    the element has no character data before its first child. *)
Inductive Element : Type :=
| Elem (tag : string) (text : option string) (children : list Element).

Definition tag (e : Element) : string :=
  match e with Elem t _ _ => t end.

Definition text (e : Element) : option string :=
  match e with Elem _ x _ => x end.

Definition children (e : Element) : list Element :=
  match e with Elem _ _ cs => cs end.

(** The proper descendants of an element, in document order. *)
Fixpoint descendants (e : Element) : list Element :=
  match e with
  | Elem _ _ cs => flat_map (fun c => c :: descendants c) cs
  end.

(** A step of a path: [Child "A"] is [/A], [Descendant "A"] is [//A]; a
    path starts at the element itself ([.]). *)
Inductive step : Type :=
| Child (t : string)
| Descendant (t : string).

Definition select (st : step) (e : Element) : list Element :=
  match st with
  | Child t => filter (fun c => String.eqb (tag c) t) (children e)
  | Descendant t => filter (fun c => String.eqb (tag c) t) (descendants e)
  end.

(** [elem.findall(path)] *)
Definition findall (path : list step) (e : Element) : list Element :=
  fold_left (fun found st => flat_map (select st) found) path [e].

(** [elem.find(path)]: the first match, or [None]. *)
Definition find (path : list step) (e : Element) : option Element :=
  hd_error (findall path e).

(* ------------------------------------------------------------------ *)
(** ** What the interpreter and its libraries provide *)

Record Runtime : Type := {
  (** [float(s)] *)
  py_float : string -> Result float;
  (** [round(x, ndigits)] on a float *)
  py_round : float -> Z -> float;
  (** [x ** y] on floats *)
  py_pow : float -> float -> Result float;
  math_radians : float -> float;
  math_sin : float -> Result float;
  math_cos : float -> Result float;
  math_sqrt : float -> Result float;
  math_atan2 : float -> float -> Result float;
  (** [sys.get_int_max_str_digits()], 0 when there is no limit *)
  max_str_digits : nat;
  (** [glob.glob(pattern)] *)
  glob_glob : string -> list string;
  (** [str(p)] for [p] in [Path(base).glob(pattern)] *)
  path_glob : string -> string -> list string;
  (** [str(p)] for [p] in [Path(base).rglob(pattern)] *)
  path_rglob : string -> string -> list string;
  (** [str(Path(f))] *)
  path_str : string -> string;
  (** [ET.parse(path).getroot()] *)
  et_parse : string -> Result Element;
  (** [out.parent.mkdir(parents=True, exist_ok=True)] followed by
      [out.open("w", ...)] *)
  open_w : string -> Result unit
}.

(* ------------------------------------------------------------------ *)
(** ** Rows *)

(** A value of a [Lat] or [Lon] entry: a float, or the string [""]. *)
Inductive cell : Type :=
| CellStr (s : string)
| CellFloat (f : float).

(** An entry of [via_points_detail]. *)
Module Detail.
Record t : Type := mk {
  Position : string;
  Lat : cell;
  Lon : cell;
  GroupID : string;
  Segment : string;
  Heading : string;
  Type_ : string;
  LinkToGeom : string;
  Direction : string;
  TTSRemark : string;
  WorkType : string;
  MMRule : string;
  ManeuverID : string;
  ManeuverNumber : string;
  IsDeadEnd : string;
  seq : Z
}.

End Detail.

(** An entry of [via_points_min]: a dictionary from strings to strings,
    kept in insertion order, which is the order [json.dumps] writes. *)
Definition Summary : Type := list (string * string).

Module MainRow.
Record t : Type := mk {
  name : string;
  description : string;
  CreationTimeUTC : string;
  IsManuallyCorrected : string;
  TotalDistanceKm : float;
  RouteInfo_IgnoringRestrictions : string;
  RouteInfo_MapCorrectionInfo_DatasetInfo_ImageInfo_ImageName : string;
  RouteInfo_MapCorrectionInfo_DatasetInfo_ImageInfo_StartMapId : string;
  RouteInfo_ViaPoints_NumVia : Z;
  RouteInfo_ViaPoints_ViaPoint : string
}.
End MainRow.

Module DetailRow.
Record t : Type := mk {
  placemark_index : Z;
  placemark_name : string;
  seq : Z;
  Position : string;
  Lat : cell;
  Lon : cell;
  GroupID : string;
  Segment : string;
  Heading : string;
  Type_ : string;
  LinkToGeom : string;
  Direction : string;
  TTSRemark : string;
  WorkType : string;
  MMRule : string;
  ManeuverID : string;
  ManeuverNumber : string;
  IsDeadEnd : string
}.
End DetailRow.

(* ------------------------------------------------------------------ *)
(** ** Basic tools *)

Definition clean_text (s : option string) (collapse_space : bool) : string :=
  match s with
  | None => ""
  | Some s =>
      let s := PyStr.replace "009"%char " "
                 (PyStr.replace "010"%char " "
                    (PyStr.replace "013"%char " " s)) in
      let s := PyStr.strip s in
      if collapse_space then PyStr.join " " (PyStr.split_ws s) else s
  end.

Definition parse_text (elem : Element) (path : list step) (default : string)
  : string :=
  match find path elem with
  | None => default
  | Some node =>
      match text node with
      | None => default
      | Some x => clean_text (Some x) true
      end
  end.

(* ------------------------------------------------------------------ *)
(** ** JSON text *)

Inductive json : Type :=
| JStr (s : string)
| JArr (items : list json)
| JObj (members : list (string * json)).

Definition dquote : ascii := Eval cbv in ascii_of_nat 34.
Definition backslash : ascii := Eval cbv in ascii_of_nat 92.

Definition hex_digit (n : nat) : ascii :=
  match String.get n "0123456789abcdef" with
  | Some c => c
  | None => "0"%char
  end.

(** The replacement [json.encoder] makes for one character when
    [ensure_ascii] is false: the quote, the backslash and the control
    characters are escaped, everything else is written as it is. *)
Definition escape_char (c : ascii) : string :=
  let n := PyStr.code c in
  if n =? 34 then String backslash (String dquote "")
  else if n =? 92 then String backslash (String backslash "")
  else if n =? 10 then String backslash "n"
  else if n =? 13 then String backslash "r"
  else if n =? 9 then String backslash "t"
  else if n =? 8 then String backslash "b"
  else if n =? 12 then String backslash "f"
  else if n <? 32
       then String backslash
              (String "u"%char (String "0"%char (String "0"%char
                 (String (hex_digit (n / 16))
                    (String (hex_digit (n mod 16)) "")))))
       else String c "".

Fixpoint escape (s : string) : string :=
  match s with
  | EmptyString => EmptyString
  | String c r => escape_char c +++ escape r
  end.

Definition encode_basestring (s : string) : string :=
  String dquote (escape s +++ String dquote "").

(** [json.dumps(v, ensure_ascii=False)] with the default separators. *)
Fixpoint json_dumps (v : json) : string :=
  match v with
  | JStr s => encode_basestring s
  | JArr items => "[" +++ PyStr.join ", " (map json_dumps items) +++ "]"
  | JObj members =>
      "{" +++ PyStr.join ", "
                (map (fun kv : string * json =>
                        let '(k, x) := kv in
                        encode_basestring k +++ ": " +++ json_dumps x)
                     members)
          +++ "}"
  end.

(** The Python value [via_min] as a JSON document. *)
Definition json_of_summary (d : Summary) : json :=
  JObj (map (fun kv : string * string => (fst kv, JStr (snd kv))) d).

Definition json_of_via_min (via_min : list Summary) : json :=
  JArr (map json_of_summary via_min).

(** [s.replace("\r", "").replace("\n", "")] *)
Definition strip_crlf (s : string) : string :=
  PyStr.replace "010"%char "" (PyStr.replace "013"%char "" s).

Section WithRuntime.

Variable rt : Runtime.

Definition parse_int (elem : Element) (path : list step) (default : Z) : Z :=
  let txt := parse_text elem path "" in
  match py_int (max_str_digits rt) txt with
  | Some z => z
  | None => default
  end.

Definition parse_float_safe (s : string) : option float :=
  match py_float rt s with
  | Ok f => Some f
  | Raise _ => None
  end.

Definition haversine_km (lat1 lon1 lat2 lon2 : float) : Result float :=
  let R := 6371.0088%float in
  let phi1 := math_radians rt lat1 in
  let phi2 := math_radians rt lat2 in
  let dphi := math_radians rt (lat2 - lat1)%float in
  let dlmb := math_radians rt (lon2 - lon1)%float in
  let* s1 := math_sin rt (dphi / 2)%float in
  let* s1sq := py_pow rt s1 2%float in
  let* c1 := math_cos rt phi1 in
  let* c2 := math_cos rt phi2 in
  let* s2 := math_sin rt (dlmb / 2)%float in
  let* s2sq := py_pow rt s2 2%float in
  let a := (s1sq + c1 * c2 * s2sq)%float in
  let* ra := math_sqrt rt a in
  let* rb := math_sqrt rt (1 - a)%float in
  let* at2 := math_atan2 rt ra rb in
  let c := (2 * at2)%float in
  Ok (R * c)%float.

(* ---------------------------------------------------------------- *)
(** ** RouteInfo and ViaPoints *)

(** The three lists [parse_via_points] fills, and its counter. *)
Record via_state : Type := mk_via_state {
  via_points_min : list Summary;
  via_points_detail : list Detail.t;
  positions : list (float * float);
  seq_counter : Z
}.

(** [lat] and [lon] of one waypoint, and the pair appended to
    [positions], if any. *)
Definition parse_position (pos_txt : string)
  : option float * option float * list (float * float) :=
  if PyStr.is_empty pos_txt then (None, None, [])
  else
    let parts := map PyStr.strip (PyStr.split_on ","%char pos_txt) in
    match parts with
    | [p0; p1] =>
        let lon := parse_float_safe p0 in
        let lat := parse_float_safe p1 in
        match lat, lon with
        | Some la, Some lo => (lat, lon, [(la, lo)])
        | _, _ => (lat, lon, [])
        end
    | _ => (None, None, [])
    end.

Definition cell_of (x : option float) : cell :=
  match x with
  | Some f => CellFloat f
  | None => CellStr ""
  end.

(** One turn of the loop over the [ViaPoint] children. *)
Definition via_point_step (st : via_state) (vp : Element) : via_state :=
  let seq := (seq_counter st + 1)%Z in
  let pos_txt := parse_text vp [Child "Position"] "" in
  let '(lat, lon, appended) := parse_position pos_txt in
  let detail :=
    {| Detail.Position := pos_txt;
       Detail.Lat := cell_of lat;
       Detail.Lon := cell_of lon;
       Detail.GroupID := parse_text vp [Child "GroupID"] "";
       Detail.Segment := parse_text vp [Child "Segment"] "";
       Detail.Heading := parse_text vp [Child "Heading"] "";
       Detail.Type_ := parse_text vp [Child "Type"] "";
       Detail.LinkToGeom := parse_text vp [Child "LinkToGeom"] "";
       Detail.Direction := parse_text vp [Child "Direction"] "";
       Detail.TTSRemark := parse_text vp [Child "TTSRemark"] "";
       Detail.WorkType := parse_text vp [Child "WorkType"] "";
       Detail.MMRule := parse_text vp [Child "MMRule"] "";
       Detail.ManeuverID := parse_text vp [Child "ManeuverID"] "";
       Detail.ManeuverNumber := parse_text vp [Child "ManeuverNumber"] "";
       Detail.IsDeadEnd := parse_text vp [Child "IsDeadEnd"] "";
       Detail.seq := seq |} in
  let summary : Summary :=
    [("Position", pos_txt);
     ("GroupID", Detail.GroupID detail);
     ("Segment", Detail.Segment detail);
     ("Heading", Detail.Heading detail);
     ("Type", Detail.Type_ detail);
     ("LinkToGeom", Detail.LinkToGeom detail);
     ("Direction", Detail.Direction detail);
     ("WorkType", Detail.WorkType detail);
     ("MMRule", Detail.MMRule detail);
     ("ManeuverID", Detail.ManeuverID detail);
     ("ManeuverNumber", Detail.ManeuverNumber detail);
     ("IsDeadEnd", Detail.IsDeadEnd detail)] in
  {| via_points_min := via_points_min st ++ [summary];
     via_points_detail := via_points_detail st ++ [detail];
     positions := positions st ++ appended;
     seq_counter := seq |}.

Definition via_state_init : via_state :=
  {| via_points_min := []; via_points_detail := []; positions := [];
     seq_counter := 0 |}.

Definition via_points_loop (vps : list Element) (st : via_state)
  : via_state :=
  fold_left via_point_step vps st.

(** The [ViaPoint] elements the loop runs over. *)
Definition via_point_elements (routeinfo_elem : Element) : list Element :=
  match find [Child "ViaPoints"] routeinfo_elem with
  | None => []
  | Some vp_parent => findall [Child "ViaPoint"] vp_parent
  end.

Definition parse_via_points (routeinfo_elem : Element)
  : list Summary * list Detail.t * list (float * float) :=
  match find [Child "ViaPoints"] routeinfo_elem with
  | None => ([], [], [])
  | Some vp_parent =>
      let st :=
        via_points_loop (findall [Child "ViaPoint"] vp_parent)
          via_state_init in
      (via_points_min st, via_points_detail st, positions st)
  end.

(** The loop of [total_distance_km]: [i] runs over [range(1, len)],
    given here as the list of its values. *)
Fixpoint distance_loop (ps : list (float * float)) (idxs : list nat)
  (total : float) : Result float :=
  match idxs with
  | [] => Ok total
  | i :: idxs' =>
      match nth_error ps (i - 1), nth_error ps i with
      | Some (lat1, lon1), Some (lat2, lon2) =>
          let* d := haversine_km lat1 lon1 lat2 lon2 in
          distance_loop ps idxs' (total + d)%float
      | _, _ => Raise (IndexError "list index out of range")
      end
  end.

Definition total_distance_km (ps : list (float * float)) : Result float :=
  if List.length ps <=? 1 then Ok 0%float
  else distance_loop ps (List.seq 1 (List.length ps - 1)) 0%float.

(* ---------------------------------------------------------------- *)
(** ** One XML document *)

Record rows : Type := mk_rows {
  main_rows : list MainRow.t;
  detail_rows : list DetailRow.t
}.

Definition detail_row (idx : Z) (name : string) (d : Detail.t)
  : DetailRow.t :=
  {| DetailRow.placemark_index := idx;
     DetailRow.placemark_name := name;
     DetailRow.seq := Detail.seq d;
     DetailRow.Position := Detail.Position d;
     DetailRow.Lat := Detail.Lat d;
     DetailRow.Lon := Detail.Lon d;
     DetailRow.GroupID := Detail.GroupID d;
     DetailRow.Segment := Detail.Segment d;
     DetailRow.Heading := Detail.Heading d;
     DetailRow.Type_ := Detail.Type_ d;
     DetailRow.LinkToGeom := Detail.LinkToGeom d;
     DetailRow.Direction := Detail.Direction d;
     DetailRow.TTSRemark := Detail.TTSRemark d;
     DetailRow.WorkType := Detail.WorkType d;
     DetailRow.MMRule := Detail.MMRule d;
     DetailRow.ManeuverID := Detail.ManeuverID d;
     DetailRow.ManeuverNumber := Detail.ManeuverNumber d;
     DetailRow.IsDeadEnd := Detail.IsDeadEnd d |}.

(** The JSON text of [via_min], on one line. *)
Definition via_json_of (via_min : list Summary) : string :=
  strip_crlf (json_dumps (json_of_via_min via_min)).

(** The body of the loop over the placemarks. *)
Definition placemark_step (st : rows) (idx : Z) (pm : Element)
  : Result rows :=
  let name := parse_text pm [Child "name"] "" in
  let description := parse_text pm [Child "description"] "" in
  let creation_time := parse_text pm [Child "CreationTimeUTC"] "" in
  let is_manually_corrected :=
    parse_text pm [Child "IsManuallyCorrected"] "" in
  match find [Child "RouteInfo"] pm with
  | None =>
      let row :=
        {| MainRow.name := name;
           MainRow.description := description;
           MainRow.CreationTimeUTC := creation_time;
           MainRow.IsManuallyCorrected := is_manually_corrected;
           MainRow.TotalDistanceKm := 0%float;
           MainRow.RouteInfo_IgnoringRestrictions := "";
           MainRow.RouteInfo_MapCorrectionInfo_DatasetInfo_ImageInfo_ImageName
             := "";
           MainRow.RouteInfo_MapCorrectionInfo_DatasetInfo_ImageInfo_StartMapId
             := "";
           MainRow.RouteInfo_ViaPoints_NumVia := 0%Z;
           MainRow.RouteInfo_ViaPoints_ViaPoint := "[]" |} in
      Ok {| main_rows := main_rows st ++ [row];
            detail_rows := detail_rows st |}
  | Some routeinfo =>
      let ignoring :=
        parse_text routeinfo [Child "IgnoringRestrictions"] "" in
      let image_name :=
        parse_text routeinfo
          [Child "MapCorrectionInfo"; Child "DatasetInfo";
           Child "ImageInfo"; Child "ImageName"] "" in
      let start_map_id :=
        parse_text routeinfo
          [Child "MapCorrectionInfo"; Child "DatasetInfo";
           Child "ImageInfo"; Child "StartMapId"] "" in
      let num_via :=
        parse_int routeinfo [Child "ViaPoints"; Child "NumVia"] 0%Z in
      let '(via_min, via_detail, positions) :=
        parse_via_points routeinfo in
      let via_json := via_json_of via_min in
      let* dist := total_distance_km positions in
      let row :=
        {| MainRow.name := name;
           MainRow.description := description;
           MainRow.CreationTimeUTC := creation_time;
           MainRow.IsManuallyCorrected := is_manually_corrected;
           MainRow.TotalDistanceKm := py_round rt dist 6%Z;
           MainRow.RouteInfo_IgnoringRestrictions := ignoring;
           MainRow.RouteInfo_MapCorrectionInfo_DatasetInfo_ImageInfo_ImageName
             := image_name;
           MainRow.RouteInfo_MapCorrectionInfo_DatasetInfo_ImageInfo_StartMapId
             := start_map_id;
           MainRow.RouteInfo_ViaPoints_NumVia :=
             if (num_via =? 0)%Z then Z.of_nat (List.length via_detail)
             else num_via;
           MainRow.RouteInfo_ViaPoints_ViaPoint := via_json |} in
      Ok {| main_rows := main_rows st ++ [row];
            detail_rows :=
              detail_rows st ++ map (detail_row idx name) via_detail |}
  end.

(** [for idx, pm in enumerate(placemarks, start=idx)] *)
Fixpoint placemarks_loop (pms : list Element) (idx : Z) (st : rows)
  : Result rows :=
  match pms with
  | [] => Ok st
  | pm :: pms' =>
      let* st' := placemark_step st idx pm in
      placemarks_loop pms' (idx + 1)%Z st'
  end.

Definition process_single_xml (xml_path : string) : Result rows :=
  let* root := et_parse rt xml_path in
  let placemarks := findall [Descendant "Placemark"] root in
  placemarks_loop placemarks 1%Z {| main_rows := []; detail_rows := [] |}.

(* ---------------------------------------------------------------- *)
(** ** Output files *)

(** What a run leaves behind: the lines it printed and the files it
    created, each in the order of the events.  A file is given by the
    rows written to it; the CSV dialect is not modelled. *)
Inductive file_content : Type :=
| MainCsv (written : list MainRow.t)
| DetailTsv (written : list DetailRow.t).

Inductive line : Type :=
| WarnParse (xml_path : string) (e : string)  (* parse failed, skipped *)
| WarnRead (xml_path : string) (e : string)   (* read failed, skipped *)
| DoneMain (path : string)                    (* main CSV written *)
| DoneDetail (path : string).                 (* detail TSV written *)

Record World : Type := mk_World {
  stdout : list line;
  files : list (string * file_content)
}.

Definition print (l : line) (w : World) : World :=
  {| stdout := stdout w ++ [l]; files := files w |}.

Definition create (path : string) (c : file_content) (w : World) : World :=
  {| stdout := stdout w; files := files w ++ [(path, c)] |}.

Definition strip_row (r : MainRow.t) : MainRow.t :=
  {| MainRow.name := MainRow.name r;
     MainRow.description := MainRow.description r;
     MainRow.CreationTimeUTC := MainRow.CreationTimeUTC r;
     MainRow.IsManuallyCorrected := MainRow.IsManuallyCorrected r;
     MainRow.TotalDistanceKm := MainRow.TotalDistanceKm r;
     MainRow.RouteInfo_IgnoringRestrictions :=
       MainRow.RouteInfo_IgnoringRestrictions r;
     MainRow.RouteInfo_MapCorrectionInfo_DatasetInfo_ImageInfo_ImageName :=
       MainRow.RouteInfo_MapCorrectionInfo_DatasetInfo_ImageInfo_ImageName r;
     MainRow.RouteInfo_MapCorrectionInfo_DatasetInfo_ImageInfo_StartMapId :=
       MainRow.RouteInfo_MapCorrectionInfo_DatasetInfo_ImageInfo_StartMapId r;
     MainRow.RouteInfo_ViaPoints_NumVia :=
       MainRow.RouteInfo_ViaPoints_NumVia r;
     MainRow.RouteInfo_ViaPoints_ViaPoint :=
       strip_crlf (MainRow.RouteInfo_ViaPoints_ViaPoint r) |}.

Definition write_main_csv (out_csv : string) (rs : list MainRow.t)
  (w : World) : Result unit * World :=
  match open_w rt out_csv with
  | Raise e => (Raise e, w)
  | Ok _ => (Ok tt, create out_csv (MainCsv (map strip_row rs)) w)
  end.

Definition write_detail_tsv (out_tsv : string) (rs : list DetailRow.t)
  (w : World) : Result unit * World :=
  match rs with
  | [] => (Ok tt, w)
  | _ :: _ =>
      match open_w rt out_tsv with
      | Raise e => (Raise e, w)
      | Ok _ => (Ok tt, create out_tsv (DetailTsv rs) w)
      end
  end.

(* ---------------------------------------------------------------- *)
(** ** Command line *)

(** The result of [ap.parse_args()]. *)
Record Args : Type := mk_Args {
  input : list string;
  output_csv : string;
  detail_tsv : option string;
  dir : option string;
  pattern : string;
  recursive : bool
}.

(** The loop that removes duplicates, keeping the first occurrence. *)
Fixpoint uniq_loop (fs : list string) (seen : list string)
  (uniq : list string) : list string :=
  match fs with
  | [] => uniq
  | f :: fs' =>
      let p := path_str rt f in
      if existsb (String.eqb p) seen then uniq_loop fs' seen uniq
      else uniq_loop fs' (p :: seen) (uniq ++ [p])
  end.

Definition collect_input_files (args : Args) : list string :=
  let fs := flat_map (glob_glob rt) (input args) in
  let fs :=
    match dir args with
    | None => fs
    | Some base =>
        if PyStr.is_empty base then fs
        else if recursive args
             then fs ++ path_rglob rt base (pattern args)
             else fs ++ path_glob rt base (pattern args)
    end in
  uniq_loop fs [] [].

(** One turn of the loop over the input files, on the accumulators
    [all_main] and [all_detail]: a parse error and a read error are
    printed as a warning and the file is skipped; any other exception
    leaves the loop. *)
Definition file_step (acc : rows) (xml_path : string) (w : World)
  : Result rows * World :=
  match process_single_xml xml_path with
  | Ok r =>
      (Ok {| main_rows := main_rows acc ++ main_rows r;
             detail_rows := detail_rows acc ++ detail_rows r |}, w)
  | Raise (ParseError e) => (Ok acc, print (WarnParse xml_path e) w)
  | Raise (OSError e) => (Ok acc, print (WarnRead xml_path e) w)
  | Raise e => (Raise e, w)
  end.

Fixpoint files_loop (input_files : list string) (acc : rows) (w : World)
  : Result rows * World :=
  match input_files with
  | [] => (Ok acc, w)
  | xml_path :: rest =>
      match file_step acc xml_path w with
      | (Ok acc', w') => files_loop rest acc' w'
      | (Raise e, w') => (Raise e, w')
      end
  end.

(** The two messages [main] gives to [SystemExit]. *)
Inductive exit_message : Type :=
| NoInputFound      (* no input XML was found *)
| NoMainRows.       (* there is no main row to write *)

(** How a run ends. *)
Inductive outcome : Type :=
| Finished                      (* [main] returned *)
| Exited (m : exit_message)     (* [raise SystemExit(m)] *)
| Crashed (e : exn).            (* an exception nobody caught *)

(** The exit status of the process: [SystemExit] with a message and an
    uncaught exception both give 1. *)
Definition exit_status (o : outcome) : Z :=
  match o with
  | Finished => 0%Z
  | Exited _ => 1%Z
  | Crashed _ => 1%Z
  end.

Definition main (args : Args) (w : World) : outcome * World :=
  let input_files := collect_input_files args in
  match input_files with
  | [] => (Exited NoInputFound, w)
  | _ :: _ =>
      match files_loop input_files
              {| main_rows := []; detail_rows := [] |} w with
      | (Raise e, w) => (Crashed e, w)
      | (Ok acc, w) =>
          match main_rows acc with
          | [] => (Exited NoMainRows, w)
          | _ :: _ =>
              match write_main_csv (output_csv args) (main_rows acc) w with
              | (Raise e, w) => (Crashed e, w)
              | (Ok _, w) =>
                  let written :=
                    match detail_tsv args with
                    | Some p => write_detail_tsv p (detail_rows acc) w
                    | None => (Ok tt, w)
                    end in
                  match written with
                  | (Raise e, w) => (Crashed e, w)
                  | (Ok _, w) =>
                      let w := print (DoneMain (output_csv args)) w in
                      match detail_tsv args with
                      | Some p => (Finished, print (DoneDetail p) w)
                      | None => (Finished, w)
                      end
                  end
              end
          end
      end
  end.

End WithRuntime.

(* ------------------------------------------------------------------ *)
(** ** Reading the JSON text back

    The reader of the main table parses the waypoint field as JSON.  This
    is [json.loads] on the documents made of strings, arrays and objects
    (numbers and the literals [true], [false], [null] are not read: the
    field never holds them).  An escape [\uXXXX] above 255 is outside the
    string model and is not read either. *)

Definition is_json_space (c : ascii) : bool :=
  let n := PyStr.code c in
  (n =? 32) || (n =? 9) || (n =? 10) || (n =? 13).

Fixpoint skip_ws (s : string) : string :=
  match s with
  | EmptyString => EmptyString
  | String c r => if is_json_space c then skip_ws r else s
  end.

Definition hex_val (c : ascii) : option nat :=
  let n := PyStr.code c in
  if (48 <=? n) && (n <=? 57) then Some (n - 48)
  else if (97 <=? n) && (n <=? 102) then Some (n - 87)
  else if (65 <=? n) && (n <=? 70) then Some (n - 55)
  else None.

Definition hex4 (a b c d : ascii) : option nat :=
  match hex_val a, hex_val b, hex_val c, hex_val d with
  | Some x, Some y, Some z, Some t => Some (((x * 16 + y) * 16 + z) * 16 + t)
  | _, _, _, _ => None
  end.

(** The character a one-letter escape stands for. *)
Definition unescape (e : ascii) : option ascii :=
  let n := PyStr.code e in
  if n =? 34 then Some dquote
  else if n =? 92 then Some backslash
  else if n =? 47 then Some "/"%char
  else if n =? 98 then Some "008"%char
  else if n =? 102 then Some "012"%char
  else if n =? 110 then Some "010"%char
  else if n =? 114 then Some "013"%char
  else if n =? 116 then Some "009"%char
  else None.

Definition cons_char (c : ascii) (r : option (string * string))
  : option (string * string) :=
  match r with
  | Some (x, rest) => Some (String c x, rest)
  | None => None
  end.

(** The body of a string literal, after its opening quote: the decoded
    string and what follows the closing quote.  A raw control character
    ends the reading with an error. *)
Fixpoint scan_string (s : string) : option (string * string) :=
  match s with
  | EmptyString => None
  | String c r =>
      if Ascii.eqb c dquote then Some (EmptyString, r)
      else if Ascii.eqb c backslash then
        match r with
        | EmptyString => None
        | String e r2 =>
            if Ascii.eqb e "u"%char then
              match r2 with
              | String h1 (String h2 (String h3 (String h4 r3))) =>
                  match hex4 h1 h2 h3 h4 with
                  | Some n =>
                      if n <? 256
                      then cons_char (ascii_of_nat n) (scan_string r3)
                      else None
                  | None => None
                  end
              | _ => None
              end
            else
              match unescape e with
              | Some ch => cons_char ch (scan_string r2)
              | None => None
              end
        end
      else if PyStr.code c <? 32 then None
      else cons_char c (scan_string r)
  end.

Fixpoint parse_value (fuel : nat) (s : string) : option (json * string) :=
  match fuel with
  | 0 => None
  | S fuel' =>
      match s with
      | EmptyString => None
      | String c r =>
          if Ascii.eqb c dquote then
            match scan_string r with
            | Some (x, rest) => Some (JStr x, rest)
            | None => None
            end
          else if Ascii.eqb c "["%char then
            match skip_ws r with
            | EmptyString => None
            | String c' r' as r1 =>
                if Ascii.eqb c' "]"%char then Some (JArr [], r')
                else
                  match parse_items fuel' r1 with
                  | Some (items, rest) => Some (JArr items, rest)
                  | None => None
                  end
            end
          else if Ascii.eqb c "{"%char then
            match skip_ws r with
            | EmptyString => None
            | String c' r' as r1 =>
                if Ascii.eqb c' "}"%char then Some (JObj [], r')
                else
                  match parse_members fuel' r1 with
                  | Some (members, rest) => Some (JObj members, rest)
                  | None => None
                  end
            end
          else None
      end
  end

(** The items of an array, from the first character of an item to the
    closing bracket. *)
with parse_items (fuel : nat) (s : string)
  : option (list json * string) :=
  match fuel with
  | 0 => None
  | S fuel' =>
      match parse_value fuel' s with
      | None => None
      | Some (v, r) =>
          match skip_ws r with
          | EmptyString => None
          | String c r' =>
              if Ascii.eqb c ","%char then
                match parse_items fuel' (skip_ws r') with
                | Some (items, rest) => Some (v :: items, rest)
                | None => None
                end
              else if Ascii.eqb c "]"%char then Some ([v], r')
              else None
          end
      end
  end

(** The members of an object, from the opening quote of a key to the
    closing brace. *)
with parse_members (fuel : nat) (s : string)
  : option (list (string * json) * string) :=
  match fuel with
  | 0 => None
  | S fuel' =>
      match s with
      | EmptyString => None
      | String q r =>
          if Ascii.eqb q dquote then
            match scan_string r with
            | None => None
            | Some (k, r1) =>
                match skip_ws r1 with
                | EmptyString => None
                | String c r2 =>
                    if Ascii.eqb c ":"%char then
                      match parse_value fuel' (skip_ws r2) with
                      | None => None
                      | Some (v, r3) =>
                          match skip_ws r3 with
                          | EmptyString => None
                          | String c' r4 =>
                              if Ascii.eqb c' ","%char then
                                match parse_members fuel' (skip_ws r4) with
                                | Some (ms, rest) => Some ((k, v) :: ms, rest)
                                | None => None
                                end
                              else if Ascii.eqb c' "}"%char
                                   then Some ([(k, v)], r4)
                                   else None
                          end
                      end
                    else None
                end
            end
          else None
      end
  end.

(** [json.loads(s)]; twice the length of the text is fuel enough. *)
Definition json_loads (s : string) : option json :=
  match parse_value (S (2 * String.length s)) (skip_ws s) with
  | Some (v, rest) => if PyStr.is_empty (skip_ws rest) then Some v else None
  | None => None
  end.



(* ------------------------------------------------------------------ *)
(** ** The distance as the specification words it

    The sum, from left to right, of the great-circle distances between
    each coordinate pair and the next one. *)

Fixpoint sum_consecutive (rt : Runtime) (ps : list (float * float))
  (total : float) : Result float :=
  match ps with
  | (lat1, lon1) :: (((lat2, lon2) :: _) as ps') =>
      let* d := haversine_km rt lat1 lon1 lat2 lon2 in
      sum_consecutive rt ps' (total + d)%float
  | _ => Ok total
  end.

(** A position text that splits into exactly two comma-separated tokens
    which both parse as floating-point numbers. *)
Definition valid_position (rt : Runtime) (pos_txt : string) : Prop :=
  exists p0 p1 lon lat,
    PyStr.split_on ","%char pos_txt = [p0; p1]
    /\ py_float rt (PyStr.strip p0) = Ok lon
    /\ py_float rt (PyStr.strip p1) = Ok lat.

(** The waypoints of a placemark: none when it has no [RouteInfo]. *)
Definition waypoints_of (pm : Element) : list Element :=
  match find [Child "RouteInfo"] pm with
  | None => []
  | Some routeinfo => via_point_elements routeinfo
  end.

(* ------------------------------------------------------------------ *)
(** ** A small runtime for the examples

    The examples below run the program on concrete documents.  They need
    an instance of [Runtime]; this one tabulates what CPython does at the
    arguments the examples reach.

    - [float()]: plain decimal literals of at most 15 digits, with an
      optional sign and fraction, and [inf], [nan]; such a literal is
      converted exactly by one correctly rounded division.  Everything else
      raises, which is what CPython does for the other texts used below
      (words such as [abc]).
    - [math.sin], [math.cos]: raise [ValueError] at an infinite argument.
      [math.sqrt]: raises at a negative argument.  The kernel has no
      trigonometry: at finite arguments [sin], [cos], [atan2] and [**]
      return what they return at zero ([sin 0 = 0], [cos 0 = 1],
      [atan2 0 x = 0] for positive [x], [0 ** 2 = 0]), and the examples
      reach them at zero only.
    - [round]: the identity, which is [round(x, 6)] for the values the
      examples round (0.0).
    - Files: a handful of named documents; one output path cannot be
      opened. *)

Module Demo.

Definition digit_float (c : ascii) : float :=
  nth (PyStr.code c - 48)
    [0; 1; 2; 3; 4; 5; 6; 7; 8; 9]%float 0%float.

(** Reads a run of digits into [acc]; returns the value, the number of
    digits read and the rest. *)
Fixpoint digits (acc : float) (n : nat) (s : string)
  : float * nat * string :=
  match s with
  | EmptyString => (acc, n, s)
  | String c r =>
      if PyStr.is_digit c
      then digits (acc * 10 + digit_float c)%float (S n) r
      else (acc, n, s)
  end.

Fixpoint pow10 (k : nat) : float :=
  match k with
  | 0 => 1%float
  | S k' => (10 * pow10 k')%float
  end.

Definition unsigned_float (s : string) : Result float :=
  if String.eqb s "inf" then Ok infinity
  else if String.eqb s "nan" then Ok nan
  else
    let '(m, n1, r) := digits 0%float 0 s in
    let '(m, n, r) :=
      match r with
      | String "."%char r' =>
          let '(m', n', r'') := digits m n1 r' in (m', n', r'')
      | _ => (m, n1, r)
      end in
    if PyStr.is_empty r && (1 <=? n) && (n <=? 15)
    then Ok (m / pow10 (n - n1))%float
    else Raise (ValueError "could not convert string to float").

Definition float_of_string (s : string) : Result float :=
  match PyStr.strip s with
  | String "-"%char r =>
      match unsigned_float r with
      | Ok f => Ok (- f)%float
      | Raise e => Raise e
      end
  | String "+"%char r => unsigned_float r
  | t => unsigned_float t
  end.

Definition domain_error : exn := ValueError "math domain error".

Definition sin (x : float) : Result float :=
  if is_infinity x then Raise domain_error else Ok x.

Definition cos (x : float) : Result float :=
  if is_infinity x then Raise domain_error else Ok 1%float.

Definition sqrt (x : float) : Result float :=
  if (x <? 0)%float then Raise domain_error else Ok (PrimFloat.sqrt x).

Definition atan2 (y x : float) : Result float := Ok y.

Definition pow (x y : float) : Result float := Ok (x * x)%float.

Definition round (x : float) (ndigits : Z) : float := x.

Definition radians (x : float) : float :=
  (x * (3.141592653589793 / 180))%float.

Definition text_elem (t x : string) : Element := Elem t (Some x) [].

Definition via_point (pos : string) : Element :=
  Elem "ViaPoint" None [text_elem "Position" pos; text_elem "Type" "via"].

Definition route_info (num_via : string) (vps : list Element) : Element :=
  Elem "RouteInfo" None
    [text_elem "IgnoringRestrictions" "false";
     Elem "ViaPoints" None (text_elem "NumVia" num_via :: vps)].

Definition route (nm : string) (routeinfo : Element) : Element :=
  Elem "Placemark" None [text_elem "name" nm; routeinfo].

(** A placemark without [RouteInfo]. *)
Definition depot : Element := Elem "Placemark" None [text_elem "name" "depot"].

Definition doc_plain : Element := Elem "Document" None [depot].

(** A route of three waypoints, with a declared count that is not a
    number: the first waypoint has a longitude but no latitude, the second
    no coordinates at all, the third is complete. *)
Definition north_info : Element :=
  route_info "x" [via_point "1.5, abc"; via_point "here"; via_point "0, 0"].

Definition north : Element := route "north" north_info.

Definition doc_route : Element := Elem "Document" None [north].

(** A route with a declared count of 7 and two complete waypoints, one
    of them at an infinite latitude. *)
Definition far_info : Element :=
  route_info "7" [via_point "0, inf"; via_point "0, 0"].

Definition far : Element := route "far" far_info.

Definition doc_inf : Element := Elem "Document" None [far].

(** A route whose two waypoints are at the same place. *)
Definition still_info : Element :=
  route_info "2" [via_point "0, 0"; via_point "0.0, 0.0"].

Definition still : Element := route "still" still_info.

(** A route with a declared count of 7 and a single waypoint. *)
Definition short_info : Element := route_info "7" [via_point "0, 0"].

Definition short : Element := route "short" short_info.

(** A document of three placemarks: a route, a placemark without
    [RouteInfo], and another route. *)
Definition doc_mixed : Element := Elem "Document" None [short; depot; north].

Definition parse (path : string) : Result Element :=
  if String.eqb path "plain.xml" then Ok doc_plain
  else if String.eqb path "route.xml" then Ok doc_route
  else if String.eqb path "inf.xml" then Ok doc_inf
  else if String.eqb path "mixed.xml" then Ok doc_mixed
  else if String.eqb path "broken.xml"
       then Raise (ParseError "syntax error: line 1, column 0")
  else if String.eqb path "locked.xml"
       then Raise (OSError "Permission denied")
  else Raise (OSError "No such file or directory").

Definition exists_file (path : string) : bool :=
  existsb (String.eqb path)
    ["plain.xml"; "route.xml"; "inf.xml"; "mixed.xml"; "broken.xml";
     "locked.xml"].

Definition glob (pattern : string) : list string :=
  if exists_file pattern then [pattern] else [].

Definition open_for_writing (path : string) : Result unit :=
  if String.eqb path "/readonly/out.csv"
  then Raise (OSError "Permission denied")
  else Ok tt.

Definition rt : Runtime :=
  {| py_float := float_of_string;
     py_round := round;
     py_pow := pow;
     math_radians := radians;
     math_sin := sin;
     math_cos := cos;
     math_sqrt := sqrt;
     math_atan2 := atan2;
     max_str_digits := 4300;
     glob_glob := glob;
     path_glob := fun _ _ => [];
     path_rglob := fun _ _ => [];
     path_str := fun f => f;
     et_parse := parse;
     open_w := open_for_writing |}.

Definition empty_world : World := {| stdout := []; files := [] |}.

Definition args (inputs : list string) (out : string)
  (detail : option string) : Args :=
  {| input := inputs; output_csv := out; detail_tsv := detail;
     dir := None; pattern := "*.xml"; recursive := false |}.

End Demo.

(* ------------------------------------------------------------------ *)
(** ** The parts of one turn of the waypoint loop, by name *)

Definition position_text (vp : Element) : string :=
  parse_text vp [Child "Position"] "".

(** [lat] after the turn for [vp]. *)
Definition lat_of (rt : Runtime) (vp : Element) : option float :=
  fst (fst (parse_position rt (position_text vp))).

(** [lon] after the turn for [vp]. *)
Definition lon_of (rt : Runtime) (vp : Element) : option float :=
  snd (fst (parse_position rt (position_text vp))).

(** What the turn for [vp] appends to [positions]. *)
Definition position_of (rt : Runtime) (vp : Element) : list (float * float) :=
  snd (parse_position rt (position_text vp)).

(** The dictionary [detail] of the turn for [vp] with counter [seq]. *)
Definition detail_of (rt : Runtime) (seq : Z) (vp : Element) : Detail.t :=
  {| Detail.Position := position_text vp;
     Detail.Lat := cell_of (lat_of rt vp);
     Detail.Lon := cell_of (lon_of rt vp);
     Detail.GroupID := parse_text vp [Child "GroupID"] "";
     Detail.Segment := parse_text vp [Child "Segment"] "";
     Detail.Heading := parse_text vp [Child "Heading"] "";
     Detail.Type_ := parse_text vp [Child "Type"] "";
     Detail.LinkToGeom := parse_text vp [Child "LinkToGeom"] "";
     Detail.Direction := parse_text vp [Child "Direction"] "";
     Detail.TTSRemark := parse_text vp [Child "TTSRemark"] "";
     Detail.WorkType := parse_text vp [Child "WorkType"] "";
     Detail.MMRule := parse_text vp [Child "MMRule"] "";
     Detail.ManeuverID := parse_text vp [Child "ManeuverID"] "";
     Detail.ManeuverNumber := parse_text vp [Child "ManeuverNumber"] "";
     Detail.IsDeadEnd := parse_text vp [Child "IsDeadEnd"] "";
     Detail.seq := seq |}.

(** The dictionary appended to [via_points_min] in the turn for [vp]. *)
Definition summary_of (vp : Element) : Summary :=
  [("Position", position_text vp);
   ("GroupID", parse_text vp [Child "GroupID"] "");
   ("Segment", parse_text vp [Child "Segment"] "");
   ("Heading", parse_text vp [Child "Heading"] "");
   ("Type", parse_text vp [Child "Type"] "");
   ("LinkToGeom", parse_text vp [Child "LinkToGeom"] "");
   ("Direction", parse_text vp [Child "Direction"] "");
   ("WorkType", parse_text vp [Child "WorkType"] "");
   ("MMRule", parse_text vp [Child "MMRule"] "");
   ("ManeuverID", parse_text vp [Child "ManeuverID"] "");
   ("ManeuverNumber", parse_text vp [Child "ManeuverNumber"] "");
   ("IsDeadEnd", parse_text vp [Child "IsDeadEnd"] "")].

(** [c] does not occur in [s]. *)
Fixpoint no_char (c : ascii) (s : string) : bool :=
  match s with
  | EmptyString => true
  | String a r => negb (Ascii.eqb a c) && no_char c r
  end.

(** The dictionaries the loop appends to [via_points_detail] for the
    waypoints [vps] when the counter starts at [c]. *)
Fixpoint details_from (rt : Runtime) (c : Z) (vps : list Element)
  : list Detail.t :=
  match vps with
  | [] => []
  | vp :: vps' => detail_of rt (c + 1) vp :: details_from rt (c + 1) vps'
  end.

(** The dictionary [row] of a placemark whose [RouteInfo] is
    [routeinfo], once [total_distance_km] has returned [dist]. *)
Definition route_row (rt : Runtime) (pm routeinfo : Element) (dist : float)
  : MainRow.t :=
  {| MainRow.name := parse_text pm [Child "name"] "";
     MainRow.description := parse_text pm [Child "description"] "";
     MainRow.CreationTimeUTC := parse_text pm [Child "CreationTimeUTC"] "";
     MainRow.IsManuallyCorrected :=
       parse_text pm [Child "IsManuallyCorrected"] "";
     MainRow.TotalDistanceKm := py_round rt dist 6%Z;
     MainRow.RouteInfo_IgnoringRestrictions :=
       parse_text routeinfo [Child "IgnoringRestrictions"] "";
     MainRow.RouteInfo_MapCorrectionInfo_DatasetInfo_ImageInfo_ImageName :=
       parse_text routeinfo
         [Child "MapCorrectionInfo"; Child "DatasetInfo";
          Child "ImageInfo"; Child "ImageName"] "";
     MainRow.RouteInfo_MapCorrectionInfo_DatasetInfo_ImageInfo_StartMapId :=
       parse_text routeinfo
         [Child "MapCorrectionInfo"; Child "DatasetInfo";
          Child "ImageInfo"; Child "StartMapId"] "";
     MainRow.RouteInfo_ViaPoints_NumVia :=
       (let num_via :=
          parse_int rt routeinfo [Child "ViaPoints"; Child "NumVia"] 0%Z in
        if (num_via =? 0)%Z
        then Z.of_nat (List.length (via_point_elements routeinfo))
        else num_via);
     MainRow.RouteInfo_ViaPoints_ViaPoint :=
       via_json_of (map summary_of (via_point_elements routeinfo)) |}.

Definition no_rows : rows := {| main_rows := []; detail_rows := [] |}.

(** The text [json_dumps] writes for a member and for a summary. *)
Definition member_text (kv : string * string) : string :=
  encode_basestring (fst kv) +++ ": " +++ encode_basestring (snd kv).

Definition object_text (d : Summary) : string :=
  "{" +++ PyStr.join ", " (map member_text d) +++ "}".

(** Fuel with which [parse_items] reads the texts of [l]. *)
Fixpoint fuel_for_items (l : list Summary) : nat :=
  match l with
  | [] => 0
  | d :: l' => S (Nat.max (List.length d + 2) (fuel_for_items l'))
  end.

(* ------------------------------------------------------------------ *)
(** ** Vocabulary of the further properties *)

(** Every character of [s] satisfies [p]. *)
Fixpoint all_chars (p : ascii -> bool) (s : string) : bool :=
  match s with
  | EmptyString => true
  | String a r => p a && all_chars p r
  end.

(** A word: not empty, and without white space. *)
Definition is_word (w : string) : bool :=
  negb (PyStr.is_empty w) && all_chars (fun c => negb (PyStr.is_space c)) w.

(** The summary dictionary read off a detail dictionary. *)
Definition summary_of_detail (d : Detail.t) : Summary :=
  [("Position", Detail.Position d);
   ("GroupID", Detail.GroupID d);
   ("Segment", Detail.Segment d);
   ("Heading", Detail.Heading d);
   ("Type", Detail.Type_ d);
   ("LinkToGeom", Detail.LinkToGeom d);
   ("Direction", Detail.Direction d);
   ("WorkType", Detail.WorkType d);
   ("MMRule", Detail.MMRule d);
   ("ManeuverID", Detail.ManeuverID d);
   ("ManeuverNumber", Detail.ManeuverNumber d);
   ("IsDeadEnd", Detail.IsDeadEnd d)].

(** The coordinate pair of a detail dictionary that has both a latitude
    and a longitude. *)
Definition coords_of_detail (d : Detail.t) : list (float * float) :=
  match Detail.Lat d, Detail.Lon d with
  | CellFloat lat, CellFloat lon => [(lat, lon)]
  | _, _ => []
  end.

(** The detail rows of the placemarks [pms], the first of which has the
    index [idx]. *)
Fixpoint detail_block (rt : Runtime) (idx : Z) (pms : list Element)
  : list DetailRow.t :=
  match pms with
  | [] => []
  | pm :: pms' =>
      map (detail_row idx (parse_text pm [Child "name"] ""))
        (details_from rt 0 (waypoints_of pm))
      ++ detail_block rt (idx + 1) pms'
  end.

(** What identifies a detail row within its file. *)
Definition detail_key (d : DetailRow.t) : Z * Z :=
  (DetailRow.placemark_index d, DetailRow.seq d).

(** The cells of a detail row that hold a text. *)
Definition detail_row_texts (d : DetailRow.t) : list string :=
  [DetailRow.placemark_name d; DetailRow.Position d; DetailRow.GroupID d;
   DetailRow.Segment d; DetailRow.Heading d; DetailRow.Type_ d;
   DetailRow.LinkToGeom d; DetailRow.Direction d; DetailRow.TTSRemark d;
   DetailRow.WorkType d; DetailRow.MMRule d; DetailRow.ManeuverID d;
   DetailRow.ManeuverNumber d; DetailRow.IsDeadEnd d].

(** The cells of a main row that hold a text of the document. *)
Definition main_row_texts (r : MainRow.t) : list string :=
  [MainRow.name r; MainRow.description r; MainRow.CreationTimeUTC r;
   MainRow.IsManuallyCorrected r; MainRow.RouteInfo_IgnoringRestrictions r;
   MainRow.RouteInfo_MapCorrectionInfo_DatasetInfo_ImageInfo_ImageName r;
   MainRow.RouteInfo_MapCorrectionInfo_DatasetInfo_ImageInfo_StartMapId r].

(** A placemark whose distance can be computed: it has no [RouteInfo], or
    [total_distance_km] returns on the coordinates of its route. *)
Definition distance_defined (rt : Runtime) (pm : Element) : Prop :=
  forall routeinfo,
    find [Child "RouteInfo"] pm = Some routeinfo ->
    exists d,
      total_distance_km rt (snd (parse_via_points rt routeinfo)) = Ok d.

(** The dictionary [row] of a placemark without [RouteInfo]. *)
Definition plain_row (pm : Element) : MainRow.t :=
  {| MainRow.name := parse_text pm [Child "name"] "";
     MainRow.description := parse_text pm [Child "description"] "";
     MainRow.CreationTimeUTC := parse_text pm [Child "CreationTimeUTC"] "";
     MainRow.IsManuallyCorrected :=
       parse_text pm [Child "IsManuallyCorrected"] "";
     MainRow.TotalDistanceKm := 0%float;
     MainRow.RouteInfo_IgnoringRestrictions := "";
     MainRow.RouteInfo_MapCorrectionInfo_DatasetInfo_ImageInfo_ImageName := "";
     MainRow.RouteInfo_MapCorrectionInfo_DatasetInfo_ImageInfo_StartMapId := "";
     MainRow.RouteInfo_ViaPoints_NumVia := 0%Z;
     MainRow.RouteInfo_ViaPoints_ViaPoint := "[]" |}.

(** [row] is the main row the placemark [pm] gets. *)
Definition main_row_for (rt : Runtime) (pm : Element) (row : MainRow.t)
  : Prop :=
  (find [Child "RouteInfo"] pm = None /\ row = plain_row pm)
  \/ exists routeinfo dist,
       find [Child "RouteInfo"] pm = Some routeinfo
       /\ total_distance_km rt (snd (parse_via_points rt routeinfo)) = Ok dist
       /\ row = route_row rt pm routeinfo dist.

(** A character that is not a control character. *)
Definition printable (c : ascii) : bool := 32 <=? PyStr.code c.

(** The list [files] of [collect_input_files] before the duplicates are
    removed: what the patterns expand to, then what the directory scan
    finds. *)
Definition discovered_files (rt : Runtime) (args : Args) : list string :=
  flat_map (glob_glob rt) (input args)
  ++ match dir args with
     | None => []
     | Some base =>
         if PyStr.is_empty base then []
         else if recursive args
              then path_rglob rt base (pattern args)
              else path_glob rt base (pattern args)
     end.

(** The elements of a list, each at its first occurrence only. *)
Fixpoint first_occurrences (l : list string) : list string :=
  match l with
  | [] => []
  | x :: l' =>
      x :: filter (fun y => negb (String.eqb y x)) (first_occurrences l')
  end.

(** What one input file gives to the run: its rows when it is processed
    without an exception, the warning printed when it is skipped, the
    exception when nobody catches it. *)
Definition file_rows (rt : Runtime) (xml_path : string) : rows :=
  match process_single_xml rt xml_path with
  | Ok r => r
  | Raise _ => no_rows
  end.

Definition file_warning (rt : Runtime) (xml_path : string) : list line :=
  match process_single_xml rt xml_path with
  | Raise (ParseError e) => [WarnParse xml_path e]
  | Raise (OSError e) => [WarnRead xml_path e]
  | _ => []
  end.

Definition file_uncaught (rt : Runtime) (xml_path : string) : option exn :=
  match process_single_xml rt xml_path with
  | Ok _ => None
  | Raise (ParseError _) => None
  | Raise (OSError _) => None
  | Raise e => Some e
  end.

(* ================================================================== *)
(** * Properties *)

(** ** Strings *)

Lemma length_append (a b : string) :
  String.length (a +++ b) = String.length a + String.length b.
Proof.
  induction a as [|c a IH]; simpl; [reflexivity | now rewrite IH].
Qed.

Lemma append_assoc (a b c : string) : (a +++ b) +++ c = a +++ (b +++ c).
Proof.
  induction a as [|x a IH]; simpl; [reflexivity | now rewrite IH].
Qed.

Lemma append_empty_r (a : string) : a +++ "" = a.
Proof.
  induction a as [|x a IH]; simpl; [reflexivity | now rewrite IH].
Qed.

(** ** The model on small inputs *)

Example py_int_spaces : py_int 4300 " 12 " = Some 12%Z.
Proof. reflexivity. Qed.

Example py_int_underscore : py_int 4300 "-1_000" = Some (-1000)%Z.
Proof. reflexivity. Qed.

Example py_int_empty (max_digits : nat) : py_int max_digits "" = None.
Proof. reflexivity. Qed.

Example py_int_word : py_int 4300 "three" = None.
Proof. reflexivity. Qed.

Example split_on_commas : PyStr.split_on ","%char "1,,3" = ["1"; ""; "3"].
Proof. reflexivity. Qed.

Example split_on_empty : PyStr.split_on ","%char "" = [""].
Proof. reflexivity. Qed.

Example clean_text_collapses :
  clean_text (Some (String "009"%char " a  b" +++ String "010"%char "c ")) true
  = "a b c".
Proof. reflexivity. Qed.

Example clean_text_none : clean_text None true = "".
Proof. reflexivity. Qed.

Example find_first_match :
  find [Child "ViaPoints"; Child "NumVia"] Demo.north_info
  = Some (Demo.text_elem "NumVia" "x").
Proof. reflexivity. Qed.

Example findall_descendants :
  findall [Descendant "Placemark"]
    (Elem "Document" None
       [Elem "Folder" None [Demo.depot]; Demo.north])
  = [Demo.depot; Demo.north].
Proof. reflexivity. Qed.

Example json_dumps_escapes :
  json_dumps
    (json_of_via_min [[("k", String "010"%char (String "001"%char "a\b"))]])
  = "[{" +++ String dquote "k" +++ String dquote ": " +++ String dquote
      "\n\u0001a\\b" +++ String dquote "}]".
Proof. reflexivity. Qed.

Example float_of_string_decimal : Demo.float_of_string " -1.5 " = Ok (-1.5)%float.
Proof. reflexivity. Qed.

Example float_of_string_word :
  Demo.float_of_string "abc"
  = Raise (ValueError "could not convert string to float").
Proof. reflexivity. Qed.

(* ------------------------------------------------------------------ *)
(** ** The distance of a short sequence *)

(** C4: a coordinate sequence of zero or one pair has total distance
    exactly 0.0. *)
Theorem total_distance_km_short (rt : Runtime) (ps : list (float * float)) :
  List.length ps <= 1 -> total_distance_km rt ps = Ok 0%float.
Proof.
  intros H. unfold total_distance_km.
  destruct (Nat.leb_spec (List.length ps) 1) as [_|Hlt]; [reflexivity | lia].
Qed.

Lemma total_distance_km_short_witness :
  total_distance_km Demo.rt [(1.5, 2.5)%float] = Ok 0%float.
Proof.
  apply (total_distance_km_short Demo.rt [(1.5, 2.5)%float]). simpl. lia.
Defined.

(* ------------------------------------------------------------------ *)
(** ** The waypoint loop *)

Lemma via_point_step_eq (rt : Runtime) (st : via_state) (vp : Element) :
  via_point_step rt st vp =
  {| via_points_min := via_points_min st ++ [summary_of vp];
     via_points_detail :=
       via_points_detail st ++ [detail_of rt (seq_counter st + 1) vp];
     positions := positions st ++ position_of rt vp;
     seq_counter := (seq_counter st + 1)%Z |}.
Proof.
  unfold via_point_step, detail_of, summary_of, lat_of, lon_of, position_of,
    position_text.
  destruct (parse_position rt (parse_text vp [Child "Position"] ""))
    as [[lat lon] appended].
  reflexivity.
Qed.

(** The loop in closed form. *)
Lemma via_points_loop_eq (rt : Runtime) (vps : list Element) :
  forall st,
    via_points_loop rt vps st =
    {| via_points_min := via_points_min st ++ map summary_of vps;
       via_points_detail :=
         via_points_detail st ++ details_from rt (seq_counter st) vps;
       positions := positions st ++ flat_map (position_of rt) vps;
       seq_counter := (seq_counter st + Z.of_nat (List.length vps))%Z |}.
Proof.
  induction vps as [|vp vps IH]; intros st.
  - destruct st; simpl. now rewrite !app_nil_r, Z.add_0_r.
  - change (via_points_loop rt (vp :: vps) st)
      with (via_points_loop rt vps (via_point_step rt st vp)).
    rewrite IH, via_point_step_eq. cbn [via_points_min via_points_detail
      positions seq_counter map flat_map details_from].
    rewrite <- !app_assoc. cbn [app List.length].
    f_equal. lia.
Qed.

Lemma parse_via_points_eq (rt : Runtime) (routeinfo : Element) :
  parse_via_points rt routeinfo =
  (map summary_of (via_point_elements routeinfo),
   details_from rt 0 (via_point_elements routeinfo),
   flat_map (position_of rt) (via_point_elements routeinfo)).
Proof.
  unfold parse_via_points, via_point_elements.
  destruct (find [Child "ViaPoints"] routeinfo) as [vp_parent|];
    [|reflexivity].
  now rewrite via_points_loop_eq.
Qed.

Lemma details_from_length (rt : Runtime) (vps : list Element) :
  forall c, List.length (details_from rt c vps) = List.length vps.
Proof.
  induction vps as [|vp vps IH]; intros c; simpl; [reflexivity|].
  now rewrite IH.
Qed.

Lemma details_from_nth (rt : Runtime) (l1 : list Element) :
  forall c vp l2,
    nth_error (details_from rt c (l1 ++ vp :: l2)) (List.length l1)
    = Some (detail_of rt (c + Z.of_nat (List.length l1) + 1) vp).
Proof.
  induction l1 as [|x l1 IH]; intros c vp l2.
  - simpl. now rewrite Z.add_0_r.
  - cbn [app List.length details_from nth_error]. rewrite IH.
    do 2 f_equal. lia.
Qed.

Lemma details_from_seq (rt : Runtime) (vps : list Element) :
  forall c,
    map Detail.seq (details_from rt c vps)
    = map (fun i => (c + Z.of_nat i)%Z) (List.seq 1 (List.length vps)).
Proof.
  induction vps as [|vp vps IH]; intros c; [reflexivity|].
  cbn [details_from map List.length List.seq]. rewrite IH.
  f_equal.
  rewrite <- (seq_shift (List.length vps) 1), map_map.
  apply map_ext. intros i. lia.
Qed.

Lemma details_from_positions (rt : Runtime) (vps : list Element) :
  forall c,
    map Detail.Position (details_from rt c vps) = map position_text vps.
Proof.
  induction vps as [|vp vps IH]; intros c; [reflexivity|].
  cbn [details_from map]. now rewrite IH.
Qed.

(** C10: the detail records of a route are those of its waypoints in
    document order, one each, and their sequence numbers are 1, 2, ..., k,
    k being the number of waypoints, whatever the position texts are. *)
Theorem seq_contiguous (rt : Runtime) (routeinfo : Element) :
  let details := snd (fst (parse_via_points rt routeinfo)) in
  List.length details = List.length (via_point_elements routeinfo)
  /\ map Detail.Position details
     = map position_text (via_point_elements routeinfo)
  /\ map Detail.seq details
     = map Z.of_nat (List.seq 1 (List.length (via_point_elements routeinfo))).
Proof.
  rewrite parse_via_points_eq. cbn [fst snd]. split; [|split].
  - apply details_from_length.
  - apply details_from_positions.
  - rewrite details_from_seq. apply map_ext. intros i. lia.
Qed.

(* ------------------------------------------------------------------ *)
(** ** Waypoints without a usable position *)

Lemma parse_position_two (rt : Runtime) (txt p0 p1 : string) :
  PyStr.split_on ","%char txt = [p0; p1] ->
  fst (parse_position rt txt)
  = (parse_float_safe rt (PyStr.strip p1), parse_float_safe rt (PyStr.strip p0)).
Proof.
  intros Hs. unfold parse_position.
  destruct txt as [|c txt]; [discriminate Hs|].
  cbn [PyStr.is_empty]. rewrite Hs. cbn [map].
  destruct (parse_float_safe rt (PyStr.strip p1)),
    (parse_float_safe rt (PyStr.strip p0)); reflexivity.
Qed.

Lemma parse_position_not_two (rt : Runtime) (txt : string) :
  (forall p0 p1, PyStr.split_on ","%char txt <> [p0; p1]) ->
  parse_position rt txt = (None, None, []).
Proof.
  intros Hs. unfold parse_position.
  destruct (PyStr.is_empty txt); [reflexivity|].
  destruct (PyStr.split_on ","%char txt) as [|p0 [|p1 [|p2 ps]]];
    try reflexivity.
  now destruct (Hs p0 p1).
Qed.

Lemma parse_position_invalid (rt : Runtime) (txt : string) :
  ~ valid_position rt txt ->
  snd (parse_position rt txt) = []
  /\ (fst (fst (parse_position rt txt)) = None
      \/ snd (fst (parse_position rt txt)) = None).
Proof.
  intros Hinv. unfold parse_position.
  destruct (PyStr.is_empty txt); [now split; [|left]|].
  destruct (PyStr.split_on ","%char txt) as [|p0 [|p1 [|p2 ps]]] eqn:Hs;
    try (now split; [|left]).
  cbn [map]. unfold parse_float_safe.
  destruct (py_float rt (PyStr.strip p1)) as [lat|e1] eqn:H1;
    destruct (py_float rt (PyStr.strip p0)) as [lon|e0] eqn:H0;
    cbn [fst snd]; try (split; [reflexivity | now (left + right)]).
  exfalso. apply Hinv. now exists p0, p1, lon, lat.
Qed.

(** C1, as the code has it: a waypoint whose position text is not two
    comma-separated tokens that both parse as floats adds no pair to the
    coordinate sequence of its route, hence nothing to the distance, and
    keeps its detail record: the route has one record per waypoint.  In
    that record at least one of Lat and Lon is empty: each of them is the
    value of its own token when the text has two tokens and that token
    parses, and is empty otherwise. *)
Theorem invalid_position_waypoint (rt : Runtime) (routeinfo : Element)
  (l1 : list Element) (vp : Element) (l2 : list Element) :
  via_point_elements routeinfo = l1 ++ vp :: l2 ->
  ~ valid_position rt (position_text vp) ->
  let details := snd (fst (parse_via_points rt routeinfo)) in
  let coords := snd (parse_via_points rt routeinfo) in
  let without := positions (via_points_loop rt (l1 ++ l2) via_state_init) in
  List.length details = List.length (l1 ++ vp :: l2)
  /\ (exists d,
        nth_error details (List.length l1) = Some d
        /\ Detail.Position d = position_text vp
        /\ (Detail.Lat d = CellStr "" \/ Detail.Lon d = CellStr "")
        /\ (forall p0 p1,
              PyStr.split_on ","%char (position_text vp) = [p0; p1] ->
              Detail.Lon d = cell_of (parse_float_safe rt (PyStr.strip p0))
              /\ Detail.Lat d = cell_of (parse_float_safe rt (PyStr.strip p1)))
        /\ ((forall p0 p1,
               PyStr.split_on ","%char (position_text vp) <> [p0; p1]) ->
            Detail.Lat d = CellStr "" /\ Detail.Lon d = CellStr ""))
  /\ coords = without
  /\ total_distance_km rt coords = total_distance_km rt without.
Proof.
  intros Hels Hinv details coords without.
  assert (Hc : coords = without).
  { unfold coords, without. rewrite parse_via_points_eq, via_points_loop_eq.
    cbn [snd positions via_state_init app]. rewrite Hels, !flat_map_app.
    cbn [flat_map]. unfold position_of at 2.
    now rewrite (proj1 (parse_position_invalid rt _ Hinv)). }
  unfold details. rewrite parse_via_points_eq. cbn [fst snd].
  rewrite Hels. split; [apply details_from_length|]. split; [|now rewrite Hc].
  exists (detail_of rt (0 + Z.of_nat (List.length l1) + 1) vp).
  split; [apply details_from_nth|]. split; [reflexivity|].
  cbn [detail_of Detail.Lat Detail.Lon]. unfold lat_of, lon_of.
  split; [|split].
  - destruct (proj2 (parse_position_invalid rt _ Hinv)) as [H|H];
      rewrite H; [now left | now right].
  - intros p0 p1 Hs. now rewrite (parse_position_two rt _ p0 p1 Hs).
  - intros Hs. now rewrite (parse_position_not_two rt _ Hs).
Qed.

(** The first waypoint of the route [Demo.north] has the position text
    "1.5, abc": it is kept as the first of three detail records, and the
    coordinate sequence is that of the other two waypoints. *)
Lemma invalid_position_waypoint_witness :
  ~ valid_position Demo.rt (position_text (Demo.via_point "1.5, abc"))
  /\ List.length (snd (fst (parse_via_points Demo.rt Demo.north_info))) = 3
  /\ snd (parse_via_points Demo.rt Demo.north_info)
     = positions
         (via_points_loop Demo.rt
            [Demo.via_point "here"; Demo.via_point "0, 0"] via_state_init).
Proof.
  assert (Hinv : ~ valid_position Demo.rt
                     (position_text (Demo.via_point "1.5, abc"))).
  { intros (p0 & p1 & lon & lat & Hs & H0 & H1).
    vm_compute in Hs. injection Hs as <- <-.
    vm_compute in H1. discriminate H1. }
  split; [exact Hinv|].
  pose proof (invalid_position_waypoint Demo.rt Demo.north_info []
                (Demo.via_point "1.5, abc")
                [Demo.via_point "here"; Demo.via_point "0, 0"]
                eq_refl Hinv) as H.
  cbv zeta in H. destruct H as (Hlen & _ & Hpos & _).
  split; [exact Hlen | exact Hpos].
Defined.

(** C1, as it is stated, fails: the position text "1.5, abc" has a second
    token that is not a number, and the detail record of that waypoint has
    the longitude 1.5, not the empty string. *)
Lemma empty_lat_lon_counterexample :
  ~ valid_position Demo.rt (position_text (Demo.via_point "1.5, abc"))
  /\ exists d,
       nth_error (snd (fst (parse_via_points Demo.rt Demo.north_info))) 0
       = Some d
       /\ Detail.Position d = "1.5, abc"
       /\ Detail.Lat d = CellStr ""
       /\ Detail.Lon d = CellFloat 1.5
       /\ Detail.Lon d <> CellStr "".
Proof.
  split.
  - intros (p0 & p1 & lon & lat & Hs & H0 & H1).
    vm_compute in Hs. injection Hs as <- <-.
    vm_compute in H1. discriminate H1.
  - eexists. split; [vm_compute; reflexivity|].
    cbn. repeat split. discriminate.
Qed.

(* ------------------------------------------------------------------ *)
(** ** One placemark *)


(** The turn of the loop for a placemark with a [RouteInfo]: the distance
    is computed, and when that raises nothing is appended. *)
Lemma placemark_step_route (rt : Runtime) (st : rows) (idx : Z)
  (pm routeinfo : Element) :
  find [Child "RouteInfo"] pm = Some routeinfo ->
  placemark_step rt st idx pm
  = let* dist :=
      total_distance_km rt
        (flat_map (position_of rt) (via_point_elements routeinfo)) in
    Ok {| main_rows := main_rows st ++ [route_row rt pm routeinfo dist];
          detail_rows :=
            detail_rows st
            ++ map (detail_row idx (parse_text pm [Child "name"] ""))
                 (details_from rt 0 (via_point_elements routeinfo)) |}.
Proof.
  intros Hri. unfold placemark_step. rewrite Hri, parse_via_points_eq.
  unfold bind, route_row.
  destruct (total_distance_km rt _); [|reflexivity].
  now rewrite details_from_length.
Qed.

Lemma parse_int_missing (rt : Runtime) (elem : Element) (path : list step)
  (default : Z) :
  find path elem = None -> parse_int rt elem path default = default.
Proof.
  intros H. unfold parse_int, parse_text. now rewrite H.
Qed.

Lemma parse_int_not_numeric (rt : Runtime) (elem : Element)
  (path : list step) (default : Z) :
  py_int (max_str_digits rt) (parse_text elem path "") = None ->
  parse_int rt elem path default = default.
Proof.
  intros H. unfold parse_int. now rewrite H.
Qed.

(** The loop over the placemarks of a document runs the turn of each
    placemark on the rows gathered so far, with its 1-based index. *)
Lemma placemarks_loop_app (rt : Runtime) (pre post : list Element) :
  forall idx st,
    placemarks_loop rt (pre ++ post) idx st
    = let* st1 := placemarks_loop rt pre idx st in
      placemarks_loop rt post (idx + Z.of_nat (List.length pre))%Z st1.
Proof.
  induction pre as [|pm pre IH]; intros idx st.
  - cbn. now rewrite Z.add_0_r.
  - cbn [app placemarks_loop List.length]. unfold bind at 1 3.
    destruct (placemark_step rt st idx pm) as [st1|e]; [|reflexivity].
    rewrite IH. unfold bind.
    destruct (placemarks_loop rt pre (idx + 1) st1); [|reflexivity].
    f_equal. lia.
Qed.

(* ------------------------------------------------------------------ *)
(** ** The distance *)

(** The loop over [range(1, len(positions))] visits the consecutive
    pairs. *)
Lemma distance_loop_sum (rt : Runtime) (tl : list (float * float)) :
  forall pre p total,
    distance_loop rt (pre ++ p :: tl)
      (List.seq (S (List.length pre)) (List.length tl)) total
    = sum_consecutive rt (p :: tl) total.
Proof.
  induction tl as [|q tl IH]; intros pre p total.
  - destruct p; reflexivity.
  - cbn [List.length List.seq distance_loop].
    assert (H1 : nth_error (pre ++ p :: q :: tl) (S (List.length pre) - 1)
                 = Some p).
    { replace (S (List.length pre) - 1) with (List.length pre) by lia.
      rewrite nth_error_app2 by lia. now rewrite Nat.sub_diag. }
    assert (H2 : nth_error (pre ++ p :: q :: tl) (S (List.length pre))
                 = Some q).
    { rewrite nth_error_app2 by lia.
      now replace (S (List.length pre) - List.length pre) with 1 by lia. }
    rewrite H1, H2.
    destruct p as [lat1 lon1], q as [lat2 lon2].
    cbn [sum_consecutive]. unfold bind.
    destruct (haversine_km rt lat1 lon1 lat2 lon2) as [d|e]; [|reflexivity].
    specialize (IH (pre ++ [(lat1, lon1)]) (lat2, lon2) (total + d)%float).
    rewrite <- app_assoc, length_app in IH. cbn [app List.length] in IH.
    replace (List.length pre + 1) with (S (List.length pre)) in IH by lia.
    exact IH.
Qed.

(** [total_distance_km] is the sum over the consecutive pairs, from left
    to right, starting from 0.0; it raises what the first failing
    [haversine_km] raises. *)
Lemma total_distance_km_sum (rt : Runtime) (ps : list (float * float)) :
  total_distance_km rt ps = sum_consecutive rt ps 0%float.
Proof.
  unfold total_distance_km.
  destruct ps as [|p [|q tl]]; [reflexivity | now destruct p |].
  cbn [List.length Nat.leb].
  replace (S (S (List.length tl)) - 1) with (List.length (q :: tl))
    by (cbn [List.length]; lia).
  exact (distance_loop_sum rt (q :: tl) [] p 0%float).
Qed.

(** When the record of a route is written, its distance is the sum over
    the consecutive pairs of the coordinate sequence, rounded to 6
    places. *)
Lemma distance_written (rt : Runtime) (st st' : rows) (idx : Z)
  (pm routeinfo : Element) :
  find [Child "RouteInfo"] pm = Some routeinfo ->
  placemark_step rt st idx pm = Ok st' ->
  exists row d,
    main_rows st' = main_rows st ++ [row]
    /\ sum_consecutive rt (snd (parse_via_points rt routeinfo)) 0%float = Ok d
    /\ MainRow.TotalDistanceKm row = py_round rt d 6%Z.
Proof.
  intros Hri Hstep.
  rewrite (placemark_step_route rt st idx pm routeinfo Hri) in Hstep.
  rewrite parse_via_points_eq. cbn [snd].
  rewrite <- total_distance_km_sum. unfold bind in Hstep.
  destruct (total_distance_km rt _) as [dist|e]; [|discriminate Hstep].
  injection Hstep as <-. now exists (route_row rt pm routeinfo dist), dist.
Qed.

(** A route with the same place twice: two coordinate pairs, one
    distance, which is zero. *)
Example distance_written_still :
  exists st' row,
    placemark_step Demo.rt no_rows 1 Demo.still = Ok st'
    /\ main_rows st' = [row]
    /\ snd (parse_via_points Demo.rt Demo.still_info)
       = [(0, 0); (0, 0)]%float
    /\ MainRow.TotalDistanceKm row = 0%float
    /\ MainRow.RouteInfo_ViaPoints_NumVia row = 2%Z.
Proof.
  do 2 eexists. split; [vm_compute; reflexivity|].
  repeat split.
Qed.

Lemma position_of_two (rt : Runtime) (txt p0 p1 : string) (lon lat : float) :
  position_text (Demo.via_point txt) = txt ->
  map PyStr.strip (PyStr.split_on ","%char txt) = [p0; p1] ->
  py_float rt p0 = Ok lon ->
  py_float rt p1 = Ok lat ->
  position_of rt (Demo.via_point txt) = [(lat, lon)].
Proof.
  intros Htxt Hparts H0 H1. unfold position_of, parse_position.
  rewrite Htxt, Hparts. unfold parse_float_safe. rewrite H0, H1.
  destruct txt; [discriminate Hparts | reflexivity].
Qed.

(** C5 fails on the code: the texts "0, inf" and "0, 0" are two valid
    coordinate pairs, and for the route [Demo.far] made of them no main
    record is written.  The latitude difference is minus infinity, at
    which [math.sin] raises [ValueError]; the exception leaves
    [total_distance_km] and the turn of the placemark loop. *)
Theorem infinite_coordinate_raises (rt : Runtime) (e : exn) (st : rows)
  (idx : Z) :
  py_float rt "0" = Ok 0%float ->
  py_float rt "inf" = Ok infinity ->
  math_radians rt neg_infinity = neg_infinity ->
  math_sin rt neg_infinity = Raise e ->
  snd (parse_via_points rt Demo.far_info)
  = [(infinity, 0%float); (0%float, 0%float)]
  /\ placemark_step rt st idx Demo.far = Raise e.
Proof.
  intros Hzero Hinf Hrad Hsin.
  assert (Hpos : flat_map (position_of rt) (via_point_elements Demo.far_info)
                 = [(infinity, 0%float); (0%float, 0%float)]).
  { change (via_point_elements Demo.far_info)
      with [Demo.via_point "0, inf"; Demo.via_point "0, 0"].
    cbn [flat_map].
    rewrite (position_of_two rt "0, inf" "0" "inf" 0%float infinity
               eq_refl eq_refl Hzero Hinf).
    rewrite (position_of_two rt "0, 0" "0" "0" 0%float 0%float
               eq_refl eq_refl Hzero Hzero).
    reflexivity. }
  split; [now rewrite parse_via_points_eq|].
  rewrite (placemark_step_route rt st idx Demo.far Demo.far_info eq_refl).
  rewrite Hpos, total_distance_km_sum.
  cbn [sum_consecutive]. unfold haversine_km.
  change (0 - infinity)%float with neg_infinity. rewrite Hrad.
  change (neg_infinity / 2)%float with neg_infinity. rewrite Hsin.
  reflexivity.
Qed.

Lemma infinite_coordinate_raises_witness :
  placemark_step Demo.rt no_rows 1 Demo.far = Raise Demo.domain_error.
Proof.
  exact (proj2 (infinite_coordinate_raises Demo.rt Demo.domain_error
                  no_rows 1 eq_refl eq_refl eq_refl eq_refl)).
Defined.

(** The run on a file with that route: the exception is not one of the two
    the file loop catches, so the run ends with it. *)
Example infinite_coordinate_run :
  main Demo.rt (Demo.args ["plain.xml"; "inf.xml"] "out.csv" None)
    Demo.empty_world
  = (Crashed Demo.domain_error, Demo.empty_world).
Proof. vm_compute. reflexivity. Qed.

(* ------------------------------------------------------------------ *)
(** ** The loop over the input files *)

Lemma file_step_files (rt : Runtime) (acc : rows) (xml_path : string)
  (w : World) :
  files (snd (file_step rt acc xml_path w)) = files w.
Proof.
  unfold file_step.
  destruct (process_single_xml rt xml_path) as [r|[]]; reflexivity.
Qed.

Lemma files_loop_files (rt : Runtime) (l : list string) :
  forall acc w, files (snd (files_loop rt l acc w)) = files w.
Proof.
  induction l as [|p l IH]; intros acc w; [reflexivity|].
  cbn [files_loop]. pose proof (file_step_files rt acc p w) as Hf.
  destruct (file_step rt acc p w) as [[acc'|e] w']; cbn [snd] in *.
  - now rewrite IH.
  - exact Hf.
Qed.

Lemma files_loop_app (rt : Runtime) (l1 l2 : list string) :
  forall acc w,
    files_loop rt (l1 ++ l2) acc w
    = match files_loop rt l1 acc w with
      | (Ok acc', w') => files_loop rt l2 acc' w'
      | (Raise e, w') => (Raise e, w')
      end.
Proof.
  induction l1 as [|p l1 IH]; intros acc w; [reflexivity|].
  cbn [app files_loop].
  destruct (file_step rt acc p w) as [[acc'|e] w']; [apply IH | reflexivity].
Qed.

(** The rows a file adds do not depend on what has been printed. *)
Lemma file_step_rows (rt : Runtime) (acc : rows) (xml_path : string)
  (w w' : World) :
  fst (file_step rt acc xml_path w) = fst (file_step rt acc xml_path w').
Proof.
  unfold file_step.
  destruct (process_single_xml rt xml_path) as [r|[]]; reflexivity.
Qed.

Lemma files_loop_rows (rt : Runtime) (l : list string) :
  forall acc w w',
    fst (files_loop rt l acc w) = fst (files_loop rt l acc w').
Proof.
  induction l as [|p l IH]; intros acc w w'; [reflexivity|].
  cbn [files_loop]. pose proof (file_step_rows rt acc p w w') as Hr.
  destruct (file_step rt acc p w) as [[a|e] w1],
    (file_step rt acc p w') as [[a'|e'] w1']; cbn [fst] in Hr;
    try discriminate Hr.
  - injection Hr as <-. apply IH.
  - exact Hr.
Qed.

(** What has been printed stays printed. *)
Lemma files_loop_stdout (rt : Runtime) (l : list string) :
  forall acc w x,
    In x (stdout w) -> In x (stdout (snd (files_loop rt l acc w))).
Proof.
  induction l as [|p l IH]; intros acc w x Hx; [exact Hx|].
  cbn [files_loop]. unfold file_step.
  destruct (process_single_xml rt p) as [r|[]]; cbn [snd]; try exact Hx;
    apply IH; try exact Hx;
    cbn [print stdout]; apply in_or_app; now left.
Qed.

(** C6: a file whose processing raises a parse error or a read error is
    reported by a warning and adds no row to either accumulator; the loop
    goes on, and its result is the one it has without that file. *)
Theorem failed_file_skipped (rt : Runtime) (l1 : list string)
  (xml_path : string) (l2 : list string) (acc : rows) (w : World)
  (msg : string) (warning : line) :
  (process_single_xml rt xml_path = Raise (ParseError msg)
   /\ warning = WarnParse xml_path msg)
  \/ (process_single_xml rt xml_path = Raise (OSError msg)
      /\ warning = WarnRead xml_path msg) ->
  (forall acc0 w0,
      file_step rt acc0 xml_path w0 = (Ok acc0, print warning w0))
  /\ fst (files_loop rt (l1 ++ xml_path :: l2) acc w)
     = fst (files_loop rt (l1 ++ l2) acc w)
  /\ (forall acc1 w1,
        files_loop rt l1 acc w = (Ok acc1, w1) ->
        In warning
          (stdout (snd (files_loop rt (l1 ++ xml_path :: l2) acc w)))).
Proof.
  intros Hfail.
  assert (Hstep : forall acc0 w0,
             file_step rt acc0 xml_path w0 = (Ok acc0, print warning w0)).
  { intros acc0 w0. unfold file_step.
    destruct Hfail as [[-> ->]|[-> ->]]; reflexivity. }
  split; [exact Hstep|]. split.
  - rewrite !files_loop_app.
    destruct (files_loop rt l1 acc w) as [[acc1|e] w1]; [|reflexivity].
    cbn [files_loop]. rewrite Hstep. apply files_loop_rows.
  - intros acc1 w1 Hl1. rewrite files_loop_app, Hl1.
    cbn [files_loop]. rewrite Hstep. apply files_loop_stdout.
    cbn [print stdout]. apply in_or_app. right. now left.
Qed.

(** Three input files, the second of which is not well-formed XML: the
    rows are those of the first and the third, and the warning is
    printed. *)
Lemma failed_file_skipped_witness :
  fst (files_loop Demo.rt ["plain.xml"; "broken.xml"; "route.xml"]
         no_rows Demo.empty_world)
  = fst (files_loop Demo.rt ["plain.xml"; "route.xml"]
           no_rows Demo.empty_world)
  /\ In (WarnParse "broken.xml" "syntax error: line 1, column 0")
       (stdout
          (snd (files_loop Demo.rt ["plain.xml"; "broken.xml"; "route.xml"]
                  no_rows Demo.empty_world))).
Proof.
  destruct (failed_file_skipped Demo.rt ["plain.xml"] "broken.xml"
              ["route.xml"] no_rows Demo.empty_world
              "syntax error: line 1, column 0"
              (WarnParse "broken.xml" "syntax error: line 1, column 0")
              (or_introl (conj eq_refl eq_refl)))
    as (_ & Hrows & Hwarn).
  split; [exact Hrows|].
  eapply Hwarn. vm_compute. reflexivity.
Defined.

(* ------------------------------------------------------------------ *)
(** ** The run *)

(** A run that finishes: what it printed and which files it created.  The
    confirmation of the detail table depends on the option alone; the file
    is created only when there is a detail row. *)
Lemma main_finished (rt : Runtime) (args : Args) (w : World) :
  fst (main rt args w) = Finished ->
  exists acc wl,
    files_loop rt (collect_input_files rt args) no_rows w = (Ok acc, wl)
    /\ main_rows acc <> []
    /\ stdout (snd (main rt args w))
       = stdout wl
         ++ DoneMain (output_csv args)
            :: match detail_tsv args with
               | Some p => [DoneDetail p]
               | None => []
               end
    /\ files (snd (main rt args w))
       = files w
         ++ (output_csv args, MainCsv (map strip_row (main_rows acc)))
            :: match detail_tsv args, detail_rows acc with
               | Some p, _ :: _ => [(p, DetailTsv (detail_rows acc))]
               | _, _ => []
               end.
Proof.
  unfold main, no_rows.
  destruct (collect_input_files rt args) as [|f fs]; [discriminate|].
  pose proof (files_loop_files rt (f :: fs)
                {| main_rows := []; detail_rows := [] |} w) as Hfiles.
  destruct (files_loop rt (f :: fs) _ w) as [[acc|e] wl]; [|discriminate].
  cbn [snd] in Hfiles.
  destruct (main_rows acc) as [|r rs] eqn:Hrows; [discriminate|].
  unfold write_main_csv, write_detail_tsv.
  destruct (open_w rt (output_csv args)) as [[]|e]; [|discriminate].
  intros Hfin. exists acc, wl. rewrite Hrows. split; [reflexivity|].
  split; [discriminate|].
  destruct (detail_tsv args) as [p|].
  - destruct (detail_rows acc) as [|d ds].
    + cbn. rewrite Hfiles, <- app_assoc. split; reflexivity.
    + destruct (open_w rt p) as [[]|e]; [|discriminate Hfin].
      cbn. rewrite Hfiles, <- !app_assoc. split; reflexivity.
  - cbn. rewrite Hfiles. split; reflexivity.
Qed.

(** C7, as the code has it: the program itself stops the run, with an
    error message and a non-zero exit status, in exactly two cases: the
    list of input files is empty, or the loop over the files has ended
    without a main row.  In both no output file has been created. *)
Theorem main_exit_cases (rt : Runtime) (args : Args) (w : World) :
  let input_files := collect_input_files rt args in
  let looped := files_loop rt input_files no_rows w in
  (fst (main rt args w) = Exited NoInputFound <-> input_files = [])
  /\ (fst (main rt args w) = Exited NoMainRows <->
      input_files <> []
      /\ exists acc, fst looped = Ok acc /\ main_rows acc = [])
  /\ (forall m,
        fst (main rt args w) = Exited m ->
        exit_status (fst (main rt args w)) <> 0%Z
        /\ files (snd (main rt args w)) = files w).
Proof.
  intros input_files looped. unfold looped, input_files, main, no_rows.
  destruct (collect_input_files rt args) as [|f fs].
  - cbn. repeat split; try discriminate; try reflexivity.
    intros [H _]. now destruct H.
  - pose proof (files_loop_files rt (f :: fs)
                  {| main_rows := []; detail_rows := [] |} w) as Hfiles.
    destruct (files_loop rt (f :: fs) _ w) as [[acc|e] wl]; cbn [fst snd] in *.
    + destruct (main_rows acc) as [|r rs] eqn:Hrows.
      * cbn. repeat split; try discriminate; try assumption.
        now exists acc.
      * unfold write_main_csv, write_detail_tsv.
        assert (Hno : ~ (f :: fs <> []
                         /\ exists acc0, Ok acc = Ok acc0
                                         /\ main_rows acc0 = [])).
        { intros [_ (acc0 & Heq & Hnil)]. injection Heq as <-.
          rewrite Hrows in Hnil. discriminate Hnil. }
        destruct (open_w rt (output_csv args)) as [[]|e];
          [destruct (detail_tsv args) as [p|];
           [destruct (detail_rows acc) as [|d ds];
            [|destruct (open_w rt p) as [[]|e]]|]|];
          cbn; (split; [split; discriminate|]);
          (split; [split; [discriminate | intros H; now destruct Hno]|]);
          intros m; discriminate.
    + cbn. split; [split; discriminate|].
      split; [split; [discriminate|]|intros m; discriminate].
      intros [_ (acc0 & Heq & _)]. discriminate Heq.
Qed.

(** C7, as it is stated, fails: with the input [plain.xml], which gives a
    main row, and a main output that cannot be opened, the run ends with a
    non-zero exit status and without an output file, in neither of the two
    cases. *)
Lemma two_fatal_cases_counterexample :
  exit_status
    (fst (main Demo.rt (Demo.args ["plain.xml"] "/readonly/out.csv" None)
            Demo.empty_world)) <> 0%Z
  /\ files
       (snd (main Demo.rt (Demo.args ["plain.xml"] "/readonly/out.csv" None)
               Demo.empty_world)) = []
  /\ collect_input_files Demo.rt
       (Demo.args ["plain.xml"] "/readonly/out.csv" None) <> []
  /\ exists acc,
       fst (files_loop Demo.rt
              (collect_input_files Demo.rt
                 (Demo.args ["plain.xml"] "/readonly/out.csv" None))
              no_rows Demo.empty_world) = Ok acc
       /\ main_rows acc <> [].
Proof.
  split; [vm_compute; discriminate|].
  split; [vm_compute; reflexivity|].
  split; [vm_compute; discriminate|].
  eexists. split; [vm_compute; reflexivity|]. cbn. discriminate.
Qed.

(** C8 fails on the code: the detail table is requested and the only
    placemark has no waypoint, so there is no detail row and
    [write_detail_tsv] returns before it creates the file; the run still
    prints the confirmation that names the detail path. *)
Theorem detail_confirmation_without_file :
  fst (main Demo.rt (Demo.args ["plain.xml"] "out.csv" (Some "d.tsv"))
         Demo.empty_world) = Finished
  /\ stdout
       (snd (main Demo.rt (Demo.args ["plain.xml"] "out.csv" (Some "d.tsv"))
               Demo.empty_world))
     = [DoneMain "out.csv"; DoneDetail "d.tsv"]
  /\ map fst
       (files
          (snd (main Demo.rt
                  (Demo.args ["plain.xml"] "out.csv" (Some "d.tsv"))
                  Demo.empty_world)))
     = ["out.csv"].
Proof. vm_compute. repeat split. Qed.

(** A run that ends with an uncaught exception: it comes from the
    processing of an input file, or from the creation of an output file. *)
Lemma main_crashed (rt : Runtime) (args : Args) (w : World) (e : exn) :
  fst (main rt args w) = Crashed e ->
  fst (files_loop rt (collect_input_files rt args) no_rows w) = Raise e
  \/ open_w rt (output_csv args) = Raise e
  \/ exists p, detail_tsv args = Some p /\ open_w rt p = Raise e.
Proof.
  unfold main, no_rows.
  destruct (collect_input_files rt args) as [|f fs]; [discriminate|].
  destruct (files_loop rt (f :: fs) _ w) as [[acc|e0] wl]; cbn [fst].
  - destruct (main_rows acc) as [|r rs]; [discriminate|].
    unfold write_main_csv, write_detail_tsv.
    destruct (open_w rt (output_csv args)) as [[]|e1].
    + destruct (detail_tsv args) as [p|].
      * destruct (detail_rows acc) as [|d ds]; [discriminate|].
        destruct (open_w rt p) as [[]|e2] eqn:Hp; [discriminate|].
        cbn. intros H. injection H as <-. right. right. now exists p.
      * discriminate.
    + cbn. intros H. injection H as <-. right. now left.
  - intros H. injection H as <-. now left.
Qed.

(** Three input files, the second of which is not well-formed XML: the
    run finishes, prints one warning, and writes the two main rows of the
    other files. *)
Example three_files_one_broken :
  let run :=
    main Demo.rt
      (Demo.args ["plain.xml"; "broken.xml"; "route.xml"] "out.csv" None)
      Demo.empty_world in
  fst run = Finished
  /\ stdout (snd run)
     = [WarnParse "broken.xml" "syntax error: line 1, column 0";
        DoneMain "out.csv"]
  /\ exists r1 r2,
       files (snd run) = [("out.csv", MainCsv [r1; r2])]
       /\ MainRow.name r1 = "depot"
       /\ MainRow.name r2 = "north".
Proof.
  cbv zeta. split; [vm_compute; reflexivity|].
  split; [vm_compute; reflexivity|].
  do 2 eexists. split; [vm_compute; reflexivity|]. split; reflexivity.
Qed.

(* ------------------------------------------------------------------ *)
(** ** The waypoint field as JSON *)

Lemma scan_escape_char (a : ascii) (r : string) :
  scan_string (escape_char a +++ r) = cons_char a (scan_string r).
Proof.
  destruct a as [[|] [|] [|] [|] [|] [|] [|] [|]]; reflexivity.
Qed.

Lemma scan_encoded (s rest : string) :
  scan_string (escape s +++ String dquote rest) = Some (s, rest).
Proof.
  induction s as [|a s IH]; [reflexivity|].
  cbn [escape]. rewrite append_assoc, scan_escape_char, IH. reflexivity.
Qed.

Lemma encode_app (s x : string) :
  encode_basestring s +++ x = String dquote (escape s +++ String dquote x).
Proof.
  unfold encode_basestring. cbn [String.append]. now rewrite append_assoc.
Qed.

Lemma parse_value_string (f : nat) (s rest : string) :
  parse_value (S f) (encode_basestring s +++ rest) = Some (JStr s, rest).
Proof.
  rewrite encode_app. cbn [parse_value]. 
  change (Ascii.eqb dquote dquote) with true. cbv iota.
  now rewrite scan_encoded.
Qed.
Lemma skip_ws_stop (c : ascii) (r : string) :
  is_json_space c = false -> skip_ws (String c r) = String c r.
Proof. intros H. cbn [skip_ws]. now rewrite H. Qed.

Lemma skip_ws_space (r : string) : skip_ws (String " "%char r) = skip_ws r.
Proof. reflexivity. Qed.

Lemma member_text_app (kv : string * string) (x : string) :
  member_text kv +++ x
  = String dquote
      (escape (fst kv)
       +++ String dquote
             (String ":"%char
                (String " "%char
                   (String dquote (escape (snd kv) +++ String dquote x))))).
Proof.
  unfold member_text. rewrite !append_assoc, encode_app.
  cbn [String.append]. now rewrite encode_app.
Qed.

Lemma parse_member_last (f : nat) (kv : string * string) (rest : string) :
  0 < f ->
  parse_members (S f) (member_text kv +++ String "}"%char rest)
  = Some ([(fst kv, JStr (snd kv))], rest).
Proof.
  intros Hf. rewrite member_text_app.
  cbn [parse_members]. change (Ascii.eqb dquote dquote) with true. cbv iota.
  rewrite scan_encoded.
  rewrite (skip_ws_stop ":"%char) by reflexivity.
  change (Ascii.eqb ":" ":") with true. cbv iota.
  rewrite skip_ws_space, (skip_ws_stop dquote) by reflexivity.
  destruct f as [|f]; [lia|].
  cbn [parse_value]. change (Ascii.eqb dquote dquote) with true. cbv iota.
  rewrite scan_encoded.
  rewrite (skip_ws_stop "}"%char) by reflexivity.
  reflexivity.
Qed.

Lemma parse_member_more (f : nat) (kv : string * string) (next : string) :
  0 < f ->
  parse_members (S f) (member_text kv +++ ", " +++ String dquote next)
  = match parse_members f (String dquote next) with
    | Some (ms, rest) => Some ((fst kv, JStr (snd kv)) :: ms, rest)
    | None => None
    end.
Proof.
  intros Hf. rewrite member_text_app.
  cbn [parse_members]. change (Ascii.eqb dquote dquote) with true. cbv iota.
  rewrite scan_encoded.
  rewrite (skip_ws_stop ":"%char) by reflexivity.
  change (Ascii.eqb ":" ":") with true. cbv iota.
  rewrite skip_ws_space, (skip_ws_stop dquote) by reflexivity.
  destruct f as [|f]; [lia|].
  cbn [parse_value]. change (Ascii.eqb dquote dquote) with true. cbv iota.
  rewrite scan_encoded.
  cbn [String.append].
  rewrite (skip_ws_stop ","%char) by reflexivity.
  change (Ascii.eqb "," ",") with true. cbv iota.
  rewrite skip_ws_space, (skip_ws_stop dquote) by reflexivity.
  reflexivity.
Qed.

Lemma join_cons (sep x y : string) (l : list string) :
  PyStr.join sep (x :: y :: l) = x +++ sep +++ PyStr.join sep (y :: l).
Proof. reflexivity. Qed.

Lemma members_text_head (kv : string * string) (d : Summary) (x : string) :
  exists next,
    PyStr.join ", " (map member_text (kv :: d)) +++ x = String dquote next.
Proof.
  destruct d as [|kv' d]; cbn [map].
  - cbn [PyStr.join]. rewrite member_text_app. eauto.
  - rewrite join_cons, append_assoc, member_text_app. eauto.
Qed.

Lemma parse_members_ok (d : Summary) :
  forall fuel rest,
    d <> [] ->
    List.length d < fuel ->
    parse_members fuel
      (PyStr.join ", " (map member_text d) +++ String "}"%char rest)
    = Some (map (fun kv => (fst kv, JStr (snd kv))) d, rest).
Proof.
  induction d as [|kv d IH]; intros fuel rest Hne Hf; [contradiction|].
  destruct fuel as [|f]; [lia|]. cbn [List.length] in Hf.
  destruct d as [|kv' d].
  - cbn [map PyStr.join]. apply parse_member_last. lia.
  - change (map member_text (kv :: kv' :: d))
      with (member_text kv :: map member_text (kv' :: d)).
    change (map member_text (kv' :: d))
      with (member_text kv' :: map member_text d) at 1.
    rewrite join_cons, !append_assoc.
    change (member_text kv' :: map member_text d)
      with (map member_text (kv' :: d)).
    destruct (members_text_head kv' d (String "}"%char rest)) as [next Hn].
    rewrite Hn, parse_member_more by (cbn [List.length] in Hf; lia).
    rewrite <- Hn.
    rewrite (IH f rest) by (try discriminate; cbn [List.length] in *; lia).
    reflexivity.
Qed.

Lemma dumps_summary (d : Summary) :
  json_dumps (json_of_summary d) = object_text d.
Proof.
  unfold json_of_summary, object_text. cbn [json_dumps].
  rewrite map_map. reflexivity.
Qed.

Lemma parse_value_object (d : Summary) (fuel : nat) (rest : string) :
  List.length d + 1 < fuel ->
  parse_value fuel (object_text d +++ rest) = Some (json_of_summary d, rest).
Proof.
  intros Hf. destruct fuel as [|f]; [lia|]. unfold object_text.
  cbn [String.append parse_value].
  change (Ascii.eqb "{" dquote) with false.
  change (Ascii.eqb "{" "[") with false.
  change (Ascii.eqb "{" "{") with true. cbv iota.
  destruct d as [|kv d].
  - reflexivity.
  - rewrite append_assoc. cbn [String.append].
    destruct (members_text_head kv d (String "}"%char rest)) as [next Hn].
    rewrite Hn, (skip_ws_stop dquote) by reflexivity.
    change (Ascii.eqb dquote "}") with false. cbv iota.
    rewrite <- Hn, parse_members_ok by (try discriminate; lia).
    reflexivity.
Qed.

Lemma join_map_cons {A : Type} (f : A -> string) (sep : string) (x y : A)
  (l : list A) :
  PyStr.join sep (map f (x :: y :: l))
  = f x +++ sep +++ PyStr.join sep (map f (y :: l)).
Proof. reflexivity. Qed.

Lemma object_text_head (d : Summary) (x : string) :
  exists next, object_text d +++ x = String "{"%char next.
Proof. unfold object_text. cbn [String.append]. eauto. Qed.

Lemma items_text_head (d : Summary) (l : list Summary) (x : string) :
  exists next,
    PyStr.join ", " (map object_text (d :: l)) +++ x = String "{"%char next.
Proof.
  destruct l as [|d' l].
  - cbn [map PyStr.join]. apply object_text_head.
  - rewrite join_map_cons, append_assoc. apply object_text_head.
Qed.

Lemma parse_items_ok (l : list Summary) :
  forall fuel rest,
    l <> [] ->
    fuel_for_items l <= fuel ->
    parse_items fuel
      (PyStr.join ", " (map object_text l) +++ String "]"%char rest)
    = Some (map json_of_summary l, rest).
Proof.
  induction l as [|d l IH]; intros fuel rest Hne Hf; [contradiction|].
  cbn [fuel_for_items] in Hf. destruct fuel as [|f]; [lia|].
  destruct l as [|d' l].
  - cbn [map PyStr.join parse_items].
    rewrite parse_value_object by lia.
    rewrite (skip_ws_stop "]"%char) by reflexivity. reflexivity.
  - rewrite join_map_cons, !append_assoc.
    cbn [parse_items]. rewrite parse_value_object by lia.
    cbn [String.append].
    rewrite (skip_ws_stop ","%char) by reflexivity.
    change (Ascii.eqb "," ",") with true. cbv iota.
    rewrite skip_ws_space.
    destruct (items_text_head d' l (String "]"%char rest)) as [next Hn].
    rewrite Hn, (skip_ws_stop "{"%char) by reflexivity.
    rewrite <- Hn, (IH f rest) by (try discriminate; lia). reflexivity.
Qed.

Lemma dumps_via_min (l : list Summary) :
  json_dumps (json_of_via_min l)
  = "[" +++ PyStr.join ", " (map object_text l) +++ "]".
Proof.
  unfold json_of_via_min. cbn [json_dumps]. rewrite map_map.
  now rewrite (map_ext _ object_text dumps_summary).
Qed.

Lemma parse_value_array (l : list Summary) (fuel : nat) (rest : string) :
  fuel_for_items l < fuel ->
  parse_value fuel (json_dumps (json_of_via_min l) +++ rest)
  = Some (json_of_via_min l, rest).
Proof.
  intros Hf. destruct fuel as [|f]; [lia|]. rewrite dumps_via_min.
  cbn [String.append parse_value].
  change (Ascii.eqb "[" dquote) with false.
  change (Ascii.eqb "[" "[") with true. cbv iota.
  destruct l as [|d l]; [reflexivity|].
  rewrite append_assoc. cbn [String.append].
  destruct (items_text_head d l (String "]"%char rest)) as [next Hn].
  rewrite Hn, (skip_ws_stop "{"%char) by reflexivity.
  change (Ascii.eqb "{" "]") with false. cbv iota.
  rewrite <- Hn, parse_items_ok by (try discriminate; lia).
  reflexivity.
Qed.

Lemma member_text_length (kv : string * string) :
  1 <= String.length (member_text kv).
Proof.
  rewrite <- (append_empty_r (member_text kv)), member_text_app.
  cbn [String.length]. lia.
Qed.

Lemma members_text_length (d : Summary) :
  List.length d <= String.length (PyStr.join ", " (map member_text d)).
Proof.
  induction d as [|kv d IH]; [apply Nat.le_0_l|].
  destruct d as [|kv' d].
  - cbn [map PyStr.join List.length]. apply member_text_length.
  - rewrite join_map_cons, !length_append.
    pose proof (member_text_length kv). cbn [List.length] in *. lia.
Qed.

Lemma object_text_length (d : Summary) :
  List.length d + 2 <= String.length (object_text d).
Proof.
  unfold object_text. rewrite !length_append.
  pose proof (members_text_length d). cbn [String.length]. lia.
Qed.

Lemma items_text_length (l : list Summary) :
  fuel_for_items l
  <= 2 * String.length (PyStr.join ", " (map object_text l)).
Proof.
  induction l as [|d l IH]; [apply Nat.le_0_l|].
  pose proof (object_text_length d) as Hd.
  destruct l as [|d' l].
  - cbn [map PyStr.join fuel_for_items]. lia.
  - rewrite join_map_cons, !length_append.
    change (fuel_for_items (d :: d' :: l))
      with (S (Nat.max (List.length d + 2) (fuel_for_items (d' :: l)))).
    lia.
Qed.

(** Reading the text written for [via_min] gives [via_min] back. *)
Lemma json_loads_dumps (l : list Summary) :
  json_loads (json_dumps (json_of_via_min l)) = Some (json_of_via_min l).
Proof.
  unfold json_loads.
  assert (Hskip : skip_ws (json_dumps (json_of_via_min l))
                  = json_dumps (json_of_via_min l) +++ "").
  { rewrite append_empty_r, dumps_via_min. reflexivity. }
  rewrite Hskip, parse_value_array; [reflexivity|].
  pose proof (items_text_length l) as Hl.
  rewrite dumps_via_min, !length_append. cbn [String.length]. lia.
Qed.

Lemma no_char_app (c : ascii) (a b : string) :
  no_char c (a +++ b) = no_char c a && no_char c b.
Proof.
  induction a as [|x a IH]; [reflexivity|].
  cbn [String.append no_char]. now rewrite IH, andb_assoc.
Qed.

Lemma replace_absent (c : ascii) (new s : string) :
  no_char c s = true -> PyStr.replace c new s = s.
Proof.
  induction s as [|a s IH]; [reflexivity|].
  cbn [no_char PyStr.replace]. intros H.
  apply andb_true_iff in H as [Ha Hs].
  apply negb_true_iff in Ha. now rewrite Ha, IH.
Qed.

Section NoChar.

(** A character that is neither written by [json.dumps] between the
    values nor left as it is in a string. *)
Variable c : ascii.
Hypothesis escaped : forall a, no_char c (escape_char a) = true.
Hypothesis not_quote : Ascii.eqb dquote c = false.
Hypothesis not_punctuation : no_char c "[]{}:, " = true.

Lemma no_char_escape (s : string) : no_char c (escape s) = true.
Proof.
  induction s as [|a s IH]; [reflexivity|].
  cbn [escape]. now rewrite no_char_app, escaped, IH.
Qed.

Lemma no_char_encode (s : string) : no_char c (encode_basestring s) = true.
Proof.
  unfold encode_basestring. cbn [no_char].
  rewrite no_char_app, no_char_escape. cbn [no_char].
  now rewrite not_quote.
Qed.

Lemma no_char_join (sep : string) (l : list string) :
  no_char c sep = true ->
  Forall (fun x => no_char c x = true) l ->
  no_char c (PyStr.join sep l) = true.
Proof.
  intros Hsep Hl. induction Hl as [|x l Hx Hl IH]; [reflexivity|].
  destruct l as [|y l]; [exact Hx|].
  change (PyStr.join sep (x :: y :: l))
    with (x +++ sep +++ PyStr.join sep (y :: l)).
  now rewrite !no_char_app, Hx, Hsep, IH.
Qed.

Lemma no_char_comma_space : no_char c ", " = true.
Proof.
  revert not_punctuation. cbn [no_char].
  repeat (destruct (Ascii.eqb _ c); cbn [negb andb]; try discriminate).
  reflexivity.
Qed.

Lemma no_char_object (d : Summary) : no_char c (object_text d) = true.
Proof.
  unfold object_text. rewrite !no_char_app.
  rewrite no_char_join.
  - revert not_punctuation. cbn [no_char].
    repeat (destruct (Ascii.eqb _ c); cbn [negb andb]; try discriminate).
    reflexivity.
  - apply no_char_comma_space.
  - apply Forall_forall. intros x Hx. apply in_map_iff in Hx as [kv [<- _]].
    unfold member_text. rewrite !no_char_app, !no_char_encode.
    revert not_punctuation. cbn [no_char].
    repeat (destruct (Ascii.eqb _ c); cbn [negb andb]; try discriminate).
    reflexivity.
Qed.

Lemma no_char_dumps (l : list Summary) :
  no_char c (json_dumps (json_of_via_min l)) = true.
Proof.
  rewrite dumps_via_min, !no_char_app, no_char_join.
  - revert not_punctuation. cbn [no_char].
    repeat (destruct (Ascii.eqb _ c); cbn [negb andb]; try discriminate).
    reflexivity.
  - apply no_char_comma_space.
  - apply Forall_forall. intros x Hx. apply in_map_iff in Hx as [d [<- _]].
    apply no_char_object.
Qed.

End NoChar.

Lemma escape_char_no_cr (a : ascii) : no_char "013"%char (escape_char a) = true.
Proof.
  destruct a as [[|] [|] [|] [|] [|] [|] [|] [|]]; reflexivity.
Qed.

Lemma escape_char_no_lf (a : ascii) : no_char "010"%char (escape_char a) = true.
Proof.
  destruct a as [[|] [|] [|] [|] [|] [|] [|] [|]]; reflexivity.
Qed.

(** The text [json.dumps] writes has no carriage return and no line feed:
    removing them changes nothing. *)
Lemma via_json_of_dumps (l : list Summary) :
  via_json_of l = json_dumps (json_of_via_min l).
Proof.
  unfold via_json_of, strip_crlf.
  rewrite (replace_absent "013"%char)
    by (apply no_char_dumps; [apply escape_char_no_cr | reflexivity..]).
  apply replace_absent.
  apply no_char_dumps; [apply escape_char_no_lf | reflexivity..].
Qed.




(* ================================================================== *)
(** * Further properties *)

(** ** Cleaning a text *)

Lemma split_ws_replace (c : ascii) (s : string) :
  PyStr.is_space c = true ->
  forall cur,
    PyStr.split_ws_from cur (PyStr.replace c " " s)
    = PyStr.split_ws_from cur s.
Proof.
  intros Hc. induction s as [|a s IH]; intros cur; [reflexivity|].
  cbn [PyStr.replace]. destruct (Ascii.eqb_spec a c) as [->|Hne].
  - cbn [String.append PyStr.split_ws_from].
    change (PyStr.is_space " ") with true. rewrite Hc, !IH. reflexivity.
  - cbn [PyStr.split_ws_from]. rewrite !IH. reflexivity.
Qed.

Lemma split_ws_lstrip (s : string) :
  PyStr.split_ws_from "" (PyStr.lstrip s) = PyStr.split_ws_from "" s.
Proof.
  induction s as [|a s IH]; [reflexivity|].
  cbn [PyStr.lstrip]. destruct (PyStr.is_space a) eqn:Ha; [|reflexivity].
  cbn [PyStr.split_ws_from PyStr.is_empty]. now rewrite Ha.
Qed.

Lemma split_ws_rstrip (s : string) :
  forall cur,
    PyStr.split_ws_from cur (PyStr.rstrip s) = PyStr.split_ws_from cur s.
Proof.
  induction s as [|a s IH]; intros cur; [reflexivity|].
  cbn [PyStr.rstrip PyStr.split_ws_from].
  destruct (PyStr.is_space a) eqn:Ha; cbn [andb].
  - destruct (PyStr.is_empty (PyStr.rstrip s)) eqn:He.
    + destruct (PyStr.rstrip s) as [|x r] eqn:Hr; [|discriminate He].
      rewrite <- (IH ""). cbn [PyStr.split_ws_from PyStr.is_empty].
      now destruct (PyStr.is_empty cur).
    + cbn [PyStr.split_ws_from]. now rewrite Ha, IH.
  - cbn [PyStr.split_ws_from]. now rewrite Ha, IH.
Qed.

Lemma split_ws_strip (s : string) :
  PyStr.split_ws (PyStr.strip s) = PyStr.split_ws s.
Proof.
  unfold PyStr.split_ws, PyStr.strip.
  now rewrite split_ws_rstrip, split_ws_lstrip.
Qed.

Lemma all_chars_app (p : ascii -> bool) (a b : string) :
  all_chars p (a +++ b) = all_chars p a && all_chars p b.
Proof.
  induction a as [|x a IH]; [reflexivity|].
  cbn [String.append all_chars]. now rewrite IH, andb_assoc.
Qed.

Lemma is_empty_app_char (cur : string) (a : ascii) :
  PyStr.is_empty (cur +++ String a "") = false.
Proof. now destruct cur. Qed.

(** The words [split_ws_from] returns are words, when the run being read
    has no white space. *)
Lemma split_ws_from_words (s : string) :
  forall cur,
    all_chars (fun c => negb (PyStr.is_space c)) cur = true ->
    Forall (fun w => is_word w = true) (PyStr.split_ws_from cur s).
Proof.
  induction s as [|a s IH]; intros cur Hcur; cbn [PyStr.split_ws_from].
  - destruct (PyStr.is_empty cur) eqn:He; constructor; [|constructor].
    unfold is_word. now rewrite He, Hcur.
  - destruct (PyStr.is_space a) eqn:Ha.
    + destruct (PyStr.is_empty cur) eqn:He; [now apply IH|].
      constructor; [|now apply IH]. unfold is_word. now rewrite He, Hcur.
    + apply IH. rewrite all_chars_app, Hcur. cbn [all_chars].
      now rewrite Ha.
Qed.

Lemma clean_text_collapse (s : string) :
  clean_text (Some s) true = PyStr.join " " (PyStr.split_ws s).
Proof.
  unfold clean_text. rewrite split_ws_strip. unfold PyStr.split_ws.
  now rewrite !split_ws_replace by reflexivity.
Qed.

(** X1: with [collapse_space], the cleaned text is the words of the text
    joined by single spaces: the three replacements and the strip change
    nothing that the split does not already drop.  Each word is non-empty
    and has no white space. *)
Theorem clean_text_words (s : string) :
  clean_text (Some s) true = PyStr.join " " (PyStr.split_ws s)
  /\ Forall (fun w => is_word w = true) (PyStr.split_ws s).
Proof.
  split; [apply clean_text_collapse | now apply split_ws_from_words].
Qed.

Lemma split_ws_from_word (w : string) :
  forall cur rest,
    all_chars (fun c => negb (PyStr.is_space c)) w = true ->
    PyStr.split_ws_from cur (w +++ rest)
    = PyStr.split_ws_from (cur +++ w) rest.
Proof.
  induction w as [|a w IH]; intros cur rest Hw.
  - now rewrite append_empty_r.
  - cbn [all_chars] in Hw. apply andb_true_iff in Hw as [Ha Hw].
    apply negb_true_iff in Ha.
    cbn [String.append PyStr.split_ws_from]. rewrite Ha, IH by exact Hw.
    now rewrite append_assoc.
Qed.

Lemma split_ws_join (ws : list string) :
  Forall (fun w => is_word w = true) ws ->
  PyStr.split_ws (PyStr.join " " ws) = ws.
Proof.
  unfold PyStr.split_ws.
  induction 1 as [|w ws Hw Hws IH]; [reflexivity|].
  unfold is_word in Hw. apply andb_true_iff in Hw as [Hne Hw].
  apply negb_true_iff in Hne.
  destruct ws as [|w2 ws].
  - cbn [PyStr.join]. rewrite <- (append_empty_r w) at 1.
    rewrite split_ws_from_word by exact Hw.
    cbn [String.append PyStr.split_ws_from]. now rewrite Hne.
  - change (PyStr.join " " (w :: w2 :: ws))
      with (w +++ " " +++ PyStr.join " " (w2 :: ws)).
    rewrite split_ws_from_word by exact Hw.
    cbn [String.append PyStr.split_ws_from].
    change (PyStr.is_space " ") with true. cbv iota.
    now rewrite Hne, IH.
Qed.

(** X2: cleaning is idempotent: a cleaned text is left as it is by a
    second cleaning. *)
Theorem clean_text_idempotent (o : option string) :
  clean_text (Some (clean_text o true)) true = clean_text o true.
Proof.
  destruct o as [s|]; [|reflexivity].
  rewrite !clean_text_collapse, split_ws_join; [reflexivity|].
  now apply split_ws_from_words.
Qed.

Lemma no_char_replace_self (c : ascii) (s : string) :
  Ascii.eqb " " c = false -> no_char c (PyStr.replace c " " s) = true.
Proof.
  intros Hc. induction s as [|a s IH]; [reflexivity|].
  cbn [PyStr.replace]. destruct (Ascii.eqb a c) eqn:Ha.
  - cbn [String.append no_char]. now rewrite Hc, IH.
  - cbn [no_char]. now rewrite Ha, IH.
Qed.

Lemma no_char_replace_other (c d : ascii) (s : string) :
  Ascii.eqb " " c = false ->
  no_char c s = true -> no_char c (PyStr.replace d " " s) = true.
Proof.
  intros Hc. induction s as [|a s IH]; [reflexivity|].
  cbn [no_char PyStr.replace]. intros H.
  apply andb_true_iff in H as [Ha Hs].
  destruct (Ascii.eqb a d).
  - cbn [String.append no_char]. now rewrite Hc, IH.
  - cbn [no_char]. now rewrite Ha, IH.
Qed.

Lemma no_char_lstrip (c : ascii) (s : string) :
  no_char c s = true -> no_char c (PyStr.lstrip s) = true.
Proof.
  induction s as [|a s IH]; [reflexivity|].
  cbn [PyStr.lstrip]. destruct (PyStr.is_space a); [|easy].
  cbn [no_char]. intros H. apply andb_true_iff in H as [_ Hs]. now apply IH.
Qed.

Lemma no_char_rstrip (c : ascii) (s : string) :
  no_char c s = true -> no_char c (PyStr.rstrip s) = true.
Proof.
  induction s as [|a s IH]; [reflexivity|].
  cbn [PyStr.rstrip no_char]. intros H.
  apply andb_true_iff in H as [Ha Hs].
  destruct (PyStr.is_space a && PyStr.is_empty (PyStr.rstrip s));
    [reflexivity|].
  cbn [no_char]. now rewrite Ha, IH.
Qed.

Lemma no_char_split_ws (c : ascii) (s : string) :
  forall cur,
    no_char c cur = true -> no_char c s = true ->
    Forall (fun w => no_char c w = true) (PyStr.split_ws_from cur s).
Proof.
  induction s as [|a s IH]; intros cur Hcur Hs; cbn [PyStr.split_ws_from].
  - destruct (PyStr.is_empty cur); repeat constructor. exact Hcur.
  - cbn [no_char] in Hs. apply andb_true_iff in Hs as [Ha Hs].
    destruct (PyStr.is_space a).
    + destruct (PyStr.is_empty cur); [now apply IH|].
      constructor; [exact Hcur | now apply IH].
    + apply IH; [|exact Hs]. rewrite no_char_app, Hcur. cbn [no_char].
      now rewrite Ha.
Qed.

(** The cleaned text has no occurrence of a character that the
    replacements remove. *)
Lemma clean_text_no_char (c : ascii) (o : option string) (collapse : bool) :
  Ascii.eqb " " c = false ->
  (forall s, no_char c
               (PyStr.replace "009"%char " "
                  (PyStr.replace "010"%char " "
                     (PyStr.replace "013"%char " " s))) = true) ->
  no_char c (clean_text o collapse) = true.
Proof.
  intros Hc Hrepl. destruct o as [s|]; [|reflexivity].
  unfold clean_text.
  assert (Hstrip : no_char c
                     (PyStr.strip
                        (PyStr.replace "009"%char " "
                           (PyStr.replace "010"%char " "
                              (PyStr.replace "013"%char " " s)))) = true).
  { unfold PyStr.strip. apply no_char_rstrip, no_char_lstrip, Hrepl. }
  destruct collapse; [|exact Hstrip].
  apply no_char_join; [cbn [no_char]; now rewrite Hc|].
  now apply no_char_split_ws.
Qed.

Lemma clean_text_no_line_break (c : ascii) (o : option string)
  (collapse : bool) :
  In c ["009"%char; "010"%char; "013"%char] ->
  no_char c (clean_text o collapse) = true.
Proof.
  intros Hin. destruct Hin as [<-|[<-|[<-|[]]]];
    (apply clean_text_no_char; [reflexivity|intros s]).
  - now apply no_char_replace_self.
  - apply no_char_replace_other; [reflexivity|].
    now apply no_char_replace_self.
  - do 2 (apply no_char_replace_other; [reflexivity|]).
    now apply no_char_replace_self.
Qed.

Lemma parse_text_no_line_break (c : ascii) (elem : Element)
  (path : list step) :
  In c ["009"%char; "010"%char; "013"%char] ->
  no_char c (parse_text elem path "") = true.
Proof.
  intros Hc. unfold parse_text.
  destruct (find path elem) as [node|]; [|reflexivity].
  destruct (text node) as [x|]; [|reflexivity].
  now apply clean_text_no_line_break.
Qed.

(** X3: a cleaned text, with or without [collapse_space], contains no
    tab, no line feed and no carriage return; so no field that
    [parse_text] reads with the default [""] contains one. *)
Theorem text_without_line_breaks (o : option string) (collapse : bool)
  (elem : Element) (path : list step) :
  Forall (fun c => no_char c (clean_text o collapse) = true
                   /\ no_char c (parse_text elem path "") = true)
    ["009"%char; "010"%char; "013"%char].
Proof.
  apply Forall_forall. intros c Hc.
  split; [now apply clean_text_no_line_break
         | now apply parse_text_no_line_break].
Qed.

(** ** Reading an integer *)

Lemma py_int_sign (max_digits : nat) (s : string) :
  py_int max_digits s
  = match PyStr.strip s with
    | EmptyString => None
    | String a r =>
        if Ascii.eqb a "+"%char then int_unsigned max_digits r
        else if Ascii.eqb a "-"%char
             then option_map Z.opp (int_unsigned max_digits r)
             else int_unsigned max_digits (String a r)
    end.
Proof.
  unfold py_int. destruct (PyStr.strip s) as [|a r]; [reflexivity|].
  destruct a as [[|] [|] [|] [|] [|] [|] [|] [|]]; reflexivity.
Qed.

Lemma occurs_lstrip (c : ascii) (s : string) :
  PyStr.is_space c = false ->
  no_char c s = false -> no_char c (PyStr.lstrip s) = false.
Proof.
  intros Hc. induction s as [|a s IH]; [easy|].
  cbn [PyStr.lstrip]. destruct (PyStr.is_space a) eqn:Ha; [|easy].
  cbn [no_char]. destruct (Ascii.eqb_spec a c) as [->|_]; [congruence|].
  exact IH.
Qed.

Lemma occurs_rstrip (c : ascii) (s : string) :
  PyStr.is_space c = false ->
  no_char c s = false -> no_char c (PyStr.rstrip s) = false.
Proof.
  intros Hc. induction s as [|a s IH]; [easy|].
  cbn [PyStr.rstrip no_char].
  destruct (Ascii.eqb_spec a c) as [->|Hne]; cbn [negb andb].
  - intros _. rewrite Hc. cbn [andb no_char]. now rewrite Ascii.eqb_refl.
  - intros Hs. specialize (IH Hs).
    destruct (PyStr.rstrip s) as [|x r]; [discriminate IH|].
    cbn [PyStr.is_empty]. rewrite andb_false_r. cbn [no_char] in *.
    rewrite IH. apply andb_false_r.
Qed.

Lemma int_digits_foreign (c : ascii) (s : string) :
  PyStr.is_digit c = false -> c <> "_"%char ->
  no_char c s = false ->
  forall acc n after, int_digits acc n after s = None.
Proof.
  intros Hd Hu. induction s as [|a s IH]; [easy|].
  cbn [no_char int_digits]. intros Hs acc n after.
  destruct (Ascii.eqb_spec a c) as [->|Hne].
  - rewrite Hd. destruct (Ascii.eqb_spec c "_"%char); [contradiction|].
    reflexivity.
  - cbn [negb andb] in Hs.
    destruct (PyStr.is_digit a); [now apply IH|].
    destruct (Ascii.eqb a "_"%char); [|reflexivity].
    destruct after; [reflexivity | now apply IH].
Qed.

Lemma int_unsigned_foreign (c : ascii) (max_digits : nat) (s : string) :
  PyStr.is_digit c = false -> c <> "_"%char ->
  no_char c s = false ->
  int_unsigned max_digits s = None.
Proof.
  intros Hd Hu Hs. destruct s as [|a s]; [reflexivity|].
  cbn [int_unsigned]. cbn [no_char] in Hs.
  destruct (Ascii.eqb_spec a c) as [->|Hne]; [now rewrite Hd|].
  cbn [negb andb] in Hs.
  destruct (PyStr.is_digit a); [|reflexivity].
  now rewrite (int_digits_foreign c s Hd Hu Hs).
Qed.

Lemma py_int_foreign (c : ascii) (max_digits : nat) (s : string) :
  PyStr.is_digit c = false -> PyStr.is_space c = false ->
  c <> "_"%char -> c <> "+"%char -> c <> "-"%char ->
  no_char c s = false ->
  py_int max_digits s = None.
Proof.
  intros Hd Hsp Hu Hplus Hminus Hs. rewrite py_int_sign.
  assert (Hstrip : no_char c (PyStr.strip s) = false)
    by (now apply occurs_rstrip, occurs_lstrip).
  destruct (PyStr.strip s) as [|a r]; [reflexivity|].
  assert (Htail : Ascii.eqb a c = false -> no_char c r = false).
  { intros Ha. cbn [no_char] in Hstrip. now rewrite Ha in Hstrip. }
  destruct (Ascii.eqb_spec a "+"%char) as [->|_].
  - apply (int_unsigned_foreign c); try assumption.
    apply Htail. now apply Ascii.eqb_neq.
  - destruct (Ascii.eqb_spec a "-"%char) as [->|_].
    + rewrite (int_unsigned_foreign c); try assumption; [reflexivity|].
      apply Htail. now apply Ascii.eqb_neq.
    + now apply (int_unsigned_foreign c).
Qed.

(** X4: an integer field whose text holds a character that is neither a
    digit, an underscore, a sign nor white space (a decimal point, a
    letter) is read as the default: [int] raises and [parse_int] catches
    it. *)
Theorem parse_int_foreign_character (rt : Runtime) (elem : Element)
  (path : list step) (default : Z) (c : ascii) :
  no_char c (parse_text elem path "") = false ->
  PyStr.is_digit c = false -> PyStr.is_space c = false ->
  c <> "_"%char -> c <> "+"%char -> c <> "-"%char ->
  parse_int rt elem path default = default.
Proof.
  intros Hocc Hd Hsp Hu Hplus Hminus. unfold parse_int.
  now rewrite (py_int_foreign c _ _ Hd Hsp Hu Hplus Hminus Hocc).
Qed.

(** A declared count of "3.5" is read as the default, here 7. *)
Lemma parse_int_foreign_character_witness :
  parse_int Demo.rt (Demo.route_info "3.5" [])
    [Child "ViaPoints"; Child "NumVia"] 7%Z = 7%Z.
Proof.
  apply (parse_int_foreign_character Demo.rt (Demo.route_info "3.5" [])
           [Child "ViaPoints"; Child "NumVia"] 7%Z "."%char);
    try reflexivity; discriminate.
Defined.

(** ** The three lists of a route *)

Lemma summary_of_detail_of (rt : Runtime) (c : Z) (vp : Element) :
  summary_of_detail (detail_of rt c vp) = summary_of vp.
Proof. reflexivity. Qed.

Lemma position_of_detail_of (rt : Runtime) (c : Z) (vp : Element) :
  coords_of_detail (detail_of rt c vp) = position_of rt vp.
Proof.
  unfold coords_of_detail, detail_of, lat_of, lon_of, position_of.
  cbn [Detail.Lat Detail.Lon]. unfold parse_position.
  destruct (PyStr.is_empty (position_text vp)); [reflexivity|].
  destruct (map PyStr.strip (PyStr.split_on ","%char (position_text vp)))
    as [|p0 [|p1 [|p2 ps]]]; try reflexivity.
  destruct (parse_float_safe rt p1), (parse_float_safe rt p0); reflexivity.
Qed.

Lemma details_from_summaries (rt : Runtime) (vps : list Element) :
  forall c,
    map summary_of_detail (details_from rt c vps) = map summary_of vps.
Proof.
  induction vps as [|vp vps IH]; intros c; [reflexivity|].
  cbn [details_from map]. now rewrite IH.
Qed.

Lemma details_from_coords (rt : Runtime) (vps : list Element) :
  forall c,
    flat_map coords_of_detail (details_from rt c vps)
    = flat_map (position_of rt) vps.
Proof.
  induction vps as [|vp vps IH]; intros c; [reflexivity|].
  cbn [details_from flat_map]. now rewrite IH, position_of_detail_of.
Qed.

(** X5: the summaries of a route are read off its detail records, one
    each, in the same order: every summary has the position text and the
    eleven attributes of its detail record. *)
Theorem summaries_follow_details (rt : Runtime) (routeinfo : Element) :
  let via_min := fst (fst (parse_via_points rt routeinfo)) in
  let via_detail := snd (fst (parse_via_points rt routeinfo)) in
  via_min = map summary_of_detail via_detail
  /\ List.length via_min = List.length via_detail.
Proof.
  rewrite parse_via_points_eq. cbn [fst snd].
  rewrite details_from_summaries, length_map, details_from_length.
  split; reflexivity.
Qed.

Lemma flat_map_length_le {A B : Type} (f : A -> list B) (l : list A) :
  (forall a, List.length (f a) <= 1) ->
  List.length (flat_map f l) <= List.length l.
Proof.
  intros Hf. induction l as [|a l IH]; [apply Nat.le_refl|].
  cbn [flat_map List.length]. rewrite length_app.
  specialize (Hf a). lia.
Qed.

Lemma coords_of_detail_length (d : Detail.t) :
  List.length (coords_of_detail d) <= 1.
Proof.
  unfold coords_of_detail.
  destruct (Detail.Lat d), (Detail.Lon d); cbn; lia.
Qed.

(** X6: the coordinate sequence of a route is made of the pairs
    (latitude, longitude) of the detail records that have both, in the
    order of the records; it is never longer than the list of records. *)
Theorem positions_follow_details (rt : Runtime) (routeinfo : Element) :
  let via_detail := snd (fst (parse_via_points rt routeinfo)) in
  let coords := snd (parse_via_points rt routeinfo) in
  coords = flat_map coords_of_detail via_detail
  /\ List.length coords <= List.length via_detail.
Proof.
  rewrite parse_via_points_eq. cbn [fst snd].
  rewrite details_from_coords. split; [reflexivity|].
  rewrite details_from_length. apply flat_map_length_le.
  intros vp. rewrite <- (position_of_detail_of rt 0 vp).
  apply coords_of_detail_length.
Qed.

(** X7: a waypoint whose position text is [lon, lat], two tokens that
    parse, has the latitude and the longitude in its detail record and
    adds the pair (latitude, longitude), the second token first, to the
    coordinate sequence, between what the waypoints before it and after
    it add. *)
Theorem valid_position_waypoint (rt : Runtime) (routeinfo : Element)
  (l1 : list Element) (vp : Element) (l2 : list Element)
  (p0 p1 : string) (lon lat : float) :
  via_point_elements routeinfo = l1 ++ vp :: l2 ->
  PyStr.split_on ","%char (position_text vp) = [p0; p1] ->
  py_float rt (PyStr.strip p0) = Ok lon ->
  py_float rt (PyStr.strip p1) = Ok lat ->
  (exists d,
     nth_error (snd (fst (parse_via_points rt routeinfo))) (List.length l1)
     = Some d
     /\ Detail.Lat d = CellFloat lat
     /\ Detail.Lon d = CellFloat lon)
  /\ snd (parse_via_points rt routeinfo)
     = flat_map (position_of rt) l1 ++ (lat, lon) :: flat_map (position_of rt) l2.
Proof.
  intros Hels Hsplit Hlon Hlat.
  assert (Hpos : parse_position rt (position_text vp)
                 = (Some lat, Some lon, [(lat, lon)])).
  { unfold parse_position.
    destruct (position_text vp) as [|a s] eqn:Ht; [discriminate Hsplit|].
    cbn [PyStr.is_empty]. rewrite Hsplit. cbn [map].
    unfold parse_float_safe. now rewrite Hlon, Hlat. }
  rewrite parse_via_points_eq, Hels. cbn [fst snd]. split.
  - eexists. split; [apply details_from_nth|].
    cbn [detail_of Detail.Lat Detail.Lon]. unfold lat_of, lon_of.
    rewrite Hpos. split; reflexivity.
  - rewrite flat_map_app. cbn [flat_map]. unfold position_of at 2.
    now rewrite Hpos.
Qed.

(** The third waypoint of [Demo.north] has the text "0, 0". *)
Lemma valid_position_waypoint_witness :
  snd (parse_via_points Demo.rt Demo.north_info) = [(0, 0)%float].
Proof.
  exact (proj2 (valid_position_waypoint Demo.rt Demo.north_info
                  [Demo.via_point "1.5, abc"; Demo.via_point "here"]
                  (Demo.via_point "0, 0") [] "0" " 0" 0%float 0%float
                  eq_refl eq_refl eq_refl eq_refl)).
Defined.

(** ** Adding up the legs *)

(** X8: [total_distance_km] never reads outside the list: it is the sum,
    from left to right and starting from 0.0, of [haversine_km] over each
    pair and the next one, and it raises what the first failing leg
    raises. *)
Theorem total_distance_km_pairs (rt : Runtime) (ps : list (float * float)) :
  total_distance_km rt ps = sum_consecutive rt ps 0%float.
Proof. exact (total_distance_km_sum rt ps). Qed.

Lemma sum_consecutive_snoc (rt : Runtime) (ps : list (float * float)) :
  forall (p q : float * float) (total : float),
    sum_consecutive rt (ps ++ [p; q]) total
    = let* t := sum_consecutive rt (ps ++ [p]) total in
      let* d := haversine_km rt (fst p) (snd p) (fst q) (snd q) in
      Ok (t + d)%float.
Proof.
  induction ps as [|x ps IH]; intros [lat1 lon1] [lat2 lon2] total.
  - cbn [app sum_consecutive fst snd bind].
    unfold bind. now destruct (haversine_km rt lat1 lon1 lat2 lon2).
  - destruct x as [lat0 lon0]. destruct ps as [|[lat lon] ps].
    + cbn [app sum_consecutive fst snd]. unfold bind.
      destruct (haversine_km rt lat0 lon0 lat1 lon1); [|reflexivity].
      now destruct (haversine_km rt lat1 lon1 lat2 lon2).
    + cbn [app sum_consecutive]. unfold bind at 1 3.
      destruct (haversine_km rt lat0 lon0 lat lon) as [d|e]; [|reflexivity].
      exact (IH (lat1, lon1) (lat2, lon2) (total + d)%float).
Qed.

(** X9: a further coordinate pair at the end of a route adds one leg:
    the total of the longer sequence is the total of the shorter one plus
    the distance from its last pair to the new one. *)
Theorem total_distance_km_extend (rt : Runtime) (ps : list (float * float))
  (p q : float * float) :
  total_distance_km rt (ps ++ [p; q])
  = let* t := total_distance_km rt (ps ++ [p]) in
    let* d := haversine_km rt (fst p) (snd p) (fst q) (snd q) in
    Ok (t + d)%float.
Proof.
  rewrite !total_distance_km_sum. apply sum_consecutive_snoc.
Qed.

(** ** One document *)

Lemma placemark_step_inv (rt : Runtime) (st st' : rows) (idx : Z)
  (pm : Element) :
  placemark_step rt st idx pm = Ok st' ->
  exists row,
    main_row_for rt pm row
    /\ st' = {| main_rows := main_rows st ++ [row];
                detail_rows :=
                  detail_rows st
                  ++ map (detail_row idx (parse_text pm [Child "name"] ""))
                       (details_from rt 0 (waypoints_of pm)) |}.
Proof.
  intros Hstep. unfold main_row_for, waypoints_of.
  destruct (find [Child "RouteInfo"] pm) as [routeinfo|] eqn:Hri.
  - rewrite (placemark_step_route rt st idx pm routeinfo Hri) in Hstep.
    unfold bind in Hstep.
    destruct (total_distance_km rt _) as [dist|e] eqn:Hd;
      [|discriminate Hstep].
    injection Hstep as <-. exists (route_row rt pm routeinfo dist).
    split; [|reflexivity]. right. exists routeinfo, dist.
    rewrite parse_via_points_eq. cbn [snd]. now rewrite Hd.
  - unfold placemark_step in Hstep. rewrite Hri in Hstep.
    injection Hstep as <-. exists (plain_row pm).
    split; [now left|]. cbn [map]. now rewrite app_nil_r.
Qed.

Lemma placemarks_loop_inv (rt : Runtime) (pms : list Element) :
  forall idx st st',
    placemarks_loop rt pms idx st = Ok st' ->
    exists new,
      Forall2 (main_row_for rt) pms new
      /\ st' = {| main_rows := main_rows st ++ new;
                  detail_rows := detail_rows st ++ detail_block rt idx pms |}.
Proof.
  induction pms as [|pm pms IH]; intros idx st st' Hloop.
  - injection Hloop as <-. exists []. split; [constructor|].
    destruct st. cbn. now rewrite !app_nil_r.
  - cbn [placemarks_loop] in Hloop. unfold bind in Hloop.
    destruct (placemark_step rt st idx pm) as [st1|e] eqn:Hstep;
      [|discriminate Hloop].
    destruct (placemark_step_inv rt st st1 idx pm Hstep) as (row & Hrow & ->).
    destruct (IH _ _ _ Hloop) as (new & Hnew & ->).
    exists (row :: new). split; [now constructor|].
    cbn [main_rows detail_rows detail_block]. now rewrite <- !app_assoc.
Qed.

Lemma process_single_xml_inv (rt : Runtime) (xml_path : string) (r : rows) :
  process_single_xml rt xml_path = Ok r ->
  exists root,
    et_parse rt xml_path = Ok root
    /\ Forall2 (main_row_for rt) (findall [Descendant "Placemark"] root)
         (main_rows r)
    /\ detail_rows r
       = detail_block rt 1 (findall [Descendant "Placemark"] root).
Proof.
  unfold process_single_xml, bind.
  destruct (et_parse rt xml_path) as [root|e]; [|discriminate].
  intros Hloop. exists root. split; [reflexivity|].
  destruct (placemarks_loop_inv rt _ _ _ _ Hloop) as (new & Hnew & ->).
  split; [exact Hnew | reflexivity].
Qed.

Lemma placemark_step_defined (rt : Runtime) (st : rows) (idx : Z)
  (pm : Element) :
  distance_defined rt pm -> exists st', placemark_step rt st idx pm = Ok st'.
Proof.
  intros Hdef. destruct (find [Child "RouteInfo"] pm) as [routeinfo|] eqn:Hri.
  - destruct (Hdef routeinfo Hri) as [d Hd].
    rewrite (placemark_step_route rt st idx pm routeinfo Hri).
    rewrite parse_via_points_eq in Hd. cbn [snd] in Hd. rewrite Hd.
    cbn [bind]. eauto.
  - unfold placemark_step. rewrite Hri. eauto.
Qed.

Lemma main_row_for_defined (rt : Runtime) (pm : Element) (row : MainRow.t) :
  main_row_for rt pm row -> distance_defined rt pm.
Proof.
  intros [[Hnone _]|(ri & dist & Hri & Hd & _)] routeinfo Hfind.
  - congruence.
  - rewrite Hri in Hfind. injection Hfind as <-. eauto.
Qed.

Lemma placemarks_loop_defined (rt : Runtime) (pms : list Element) :
  Forall (distance_defined rt) pms ->
  forall idx st, exists st', placemarks_loop rt pms idx st = Ok st'.
Proof.
  induction 1 as [|pm pms Hpm Hpms IH]; intros idx st; [cbn; eauto|].
  cbn [placemarks_loop].
  destruct (placemark_step_defined rt st idx pm Hpm) as [st1 ->].
  cbn [bind]. apply IH.
Qed.

(** X10: a document is processed without an exception exactly when it
    parses and the distance of every route in it can be computed; a
    placemark without [RouteInfo] never stands in the way. *)
Theorem process_single_xml_succeeds (rt : Runtime) (xml_path : string) :
  (exists r, process_single_xml rt xml_path = Ok r)
  <-> exists root,
        et_parse rt xml_path = Ok root
        /\ Forall (distance_defined rt)
             (findall [Descendant "Placemark"] root).
Proof.
  split.
  - intros [r Hr].
    destruct (process_single_xml_inv rt xml_path r Hr) as (root & Hp & Hrows & _).
    exists root. split; [exact Hp|].
    induction Hrows as [|pm row pms rws Hrow _ IH]; constructor;
      [now apply (main_row_for_defined rt pm row) | exact IH].
  - intros (root & Hp & Hdef). unfold process_single_xml. rewrite Hp.
    cbn [bind]. now apply placemarks_loop_defined.
Qed.

Lemma main_row_for_fields (rt : Runtime) (pm : Element) (row : MainRow.t) :
  main_row_for rt pm row ->
  MainRow.name row = parse_text pm [Child "name"] ""
  /\ MainRow.description row = parse_text pm [Child "description"] ""
  /\ MainRow.CreationTimeUTC row = parse_text pm [Child "CreationTimeUTC"] ""
  /\ MainRow.IsManuallyCorrected row
     = parse_text pm [Child "IsManuallyCorrected"] "".
Proof.
  intros [[_ ->]|(ri & dist & _ & _ & ->)]; repeat split.
Qed.

(** X11: a processed document gives one main row per placemark, in
    document order; each row has the name, the description, the creation
    time and the correction flag of its placemark. *)
Theorem main_rows_follow_placemarks (rt : Runtime) (xml_path : string)
  (r : rows) :
  process_single_xml rt xml_path = Ok r ->
  exists root,
    et_parse rt xml_path = Ok root
    /\ List.length (main_rows r)
       = List.length (findall [Descendant "Placemark"] root)
    /\ Forall2
         (fun pm row =>
            MainRow.name row = parse_text pm [Child "name"] ""
            /\ MainRow.description row
               = parse_text pm [Child "description"] ""
            /\ MainRow.CreationTimeUTC row
               = parse_text pm [Child "CreationTimeUTC"] ""
            /\ MainRow.IsManuallyCorrected row
               = parse_text pm [Child "IsManuallyCorrected"] "")
         (findall [Descendant "Placemark"] root) (main_rows r).
Proof.
  intros Hr.
  destruct (process_single_xml_inv rt xml_path r Hr) as (root & Hp & Hrows & _).
  exists root. split; [exact Hp|]. split.
  - symmetry. exact (Forall2_length Hrows).
  - induction Hrows as [|pm row pms rws Hrow _ IH]; constructor;
      [now apply (main_row_for_fields rt) | exact IH].
Qed.

(** The document [route.xml] has one placemark, named "north". *)
Lemma main_rows_follow_placemarks_witness :
  exists r,
    process_single_xml Demo.rt "route.xml" = Ok r
    /\ List.length (main_rows r) = 1
    /\ map MainRow.name (main_rows r) = ["north"].
Proof.
  eexists. split; [vm_compute; reflexivity|].
  destruct (main_rows_follow_placemarks Demo.rt "route.xml" _ eq_refl)
    as (root & Hp & Hlen & _).
  injection Hp as <-. split; [exact Hlen | reflexivity].
Defined.

Lemma detail_block_in (rt : Runtime) (pms : list Element) :
  forall idx d,
    In d (detail_block rt idx pms) ->
    exists i pm w,
      nth_error pms i = Some pm
      /\ In w (details_from rt 0 (waypoints_of pm))
      /\ d = detail_row (idx + Z.of_nat i)
               (parse_text pm [Child "name"] "") w.
Proof.
  induction pms as [|pm pms IH]; intros idx d Hin; [contradiction|].
  cbn [detail_block] in Hin. apply in_app_or in Hin as [Hin|Hin].
  - apply in_map_iff in Hin as (w & <- & Hw).
    exists 0, pm, w. rewrite Z.add_0_r. repeat split; assumption.
  - destruct (IH _ _ Hin) as (i & pm' & w & Hnth & Hw & ->).
    exists (S i), pm', w. repeat split; try assumption.
    f_equal. lia.
Qed.

Lemma Forall2_nth_error {A B : Type} (R : A -> B -> Prop) (l : list A)
  (l' : list B) :
  Forall2 R l l' ->
  forall i a,
    nth_error l i = Some a -> exists b, nth_error l' i = Some b /\ R a b.
Proof.
  induction 1 as [|x y l l' Hxy _ IH]; intros i a Hnth.
  - now destruct i.
  - destruct i as [|i]; [injection Hnth as <-; now exists y|].
    now apply IH.
Qed.

(** X12: in a processed document every detail row points to a main row:
    its placemark index is the 1-based position of a main row of the same
    document, and its placemark name is the name in that row. *)
Theorem detail_rows_point_to_main_rows (rt : Runtime) (xml_path : string)
  (r : rows) :
  process_single_xml rt xml_path = Ok r ->
  Forall
    (fun d =>
       (1 <= DetailRow.placemark_index d
        <= Z.of_nat (List.length (main_rows r)))%Z
       /\ exists row,
            nth_error (main_rows r)
              (Z.to_nat (DetailRow.placemark_index d - 1)) = Some row
            /\ MainRow.name row = DetailRow.placemark_name d)
    (detail_rows r).
Proof.
  intros Hr.
  destruct (process_single_xml_inv rt xml_path r Hr)
    as (root & _ & Hrows & Hdet).
  rewrite Hdet. apply Forall_forall. intros d Hd.
  destruct (detail_block_in rt _ _ _ Hd) as (i & pm & w & Hnth & _ & ->).
  destruct (Forall2_nth_error _ _ _ Hrows i pm Hnth) as (row & Hrow & Hfor).
  cbn [detail_row DetailRow.placemark_index DetailRow.placemark_name].
  assert (Hi : i < List.length (main_rows r)).
  { apply nth_error_Some. now rewrite Hrow. }
  split; [lia|]. exists row.
  replace (Z.to_nat (1 + Z.of_nat i - 1)) with i by lia.
  split; [exact Hrow | apply (main_row_for_fields rt pm row Hfor)].
Qed.

(** The three detail rows of [route.xml] point to its only main row. *)
Lemma detail_rows_point_to_main_rows_witness :
  exists r,
    process_single_xml Demo.rt "route.xml" = Ok r
    /\ map DetailRow.placemark_index (detail_rows r) = [1; 1; 1]%Z
    /\ Forall
         (fun d =>
            (1 <= DetailRow.placemark_index d
             <= Z.of_nat (List.length (main_rows r)))%Z
            /\ exists row,
                 nth_error (main_rows r)
                   (Z.to_nat (DetailRow.placemark_index d - 1)) = Some row
                 /\ MainRow.name row = DetailRow.placemark_name d)
         (detail_rows r).
Proof.
  eexists. split; [vm_compute; reflexivity|]. split; [reflexivity|].
  exact (detail_rows_point_to_main_rows Demo.rt "route.xml" _ eq_refl).
Defined.

Lemma NoDup_map_injective {A B : Type} (f : A -> B) (l : list A) :
  (forall x y, f x = f y -> x = y) -> NoDup l -> NoDup (map f l).
Proof.
  intros Hinj. induction 1 as [|x l Hx _ IH]; cbn [map]; constructor;
    [|exact IH].
  intros Hin. apply in_map_iff in Hin as (y & Heq & Hy).
  apply Hinj in Heq. now subst.
Qed.

Lemma details_from_keys (rt : Runtime) (idx : Z) (nm : string)
  (vps : list Element) :
  map detail_key (map (detail_row idx nm) (details_from rt 0 vps))
  = map (fun i => (idx, Z.of_nat i)) (List.seq 1 (List.length vps)).
Proof.
  rewrite map_map.
  change (fun x => detail_key (detail_row idx nm x))
    with (fun x => (idx, Detail.seq x)).
  rewrite <- (map_map Detail.seq (fun s => (idx, s))), details_from_seq.
  rewrite map_map. apply map_ext. intros i. f_equal.
Qed.

Lemma detail_block_index (rt : Runtime) (pms : list Element) :
  forall idx d,
    In d (detail_block rt idx pms) ->
    (idx <= DetailRow.placemark_index d)%Z.
Proof.
  intros idx d Hin.
  destruct (detail_block_in rt pms idx d Hin) as (i & pm & w & _ & _ & ->).
  cbn [detail_row DetailRow.placemark_index]. lia.
Qed.

Lemma detail_block_keys (rt : Runtime) (pms : list Element) :
  forall idx, NoDup (map detail_key (detail_block rt idx pms)).
Proof.
  induction pms as [|pm pms IH]; intros idx; [constructor|].
  cbn [detail_block]. rewrite map_app. apply NoDup_app.
  - rewrite details_from_keys. apply NoDup_map_injective; [|apply seq_NoDup].
    intros x y Hxy. injection Hxy as Hxy. lia.
  - apply IH.
  - intros k Hk Hk'. rewrite details_from_keys in Hk.
    apply in_map_iff in Hk as (i & <- & _).
    apply in_map_iff in Hk' as (d & Hkey & Hd).
    apply detail_block_index in Hd. unfold detail_key in Hkey.
    injection Hkey as Hidx _. lia.
Qed.

(** X13: within a processed document no two detail rows have the same
    placemark index and sequence number. *)
Theorem detail_keys_unique (rt : Runtime) (xml_path : string) (r : rows) :
  process_single_xml rt xml_path = Ok r ->
  NoDup (map detail_key (detail_rows r)).
Proof.
  intros Hr.
  destruct (process_single_xml_inv rt xml_path r Hr) as (root & _ & _ & ->).
  apply detail_block_keys.
Qed.

Lemma detail_keys_unique_witness :
  exists r,
    process_single_xml Demo.rt "route.xml" = Ok r
    /\ map detail_key (detail_rows r) = [(1, 1); (1, 2); (1, 3)]%Z
    /\ NoDup (map detail_key (detail_rows r)).
Proof.
  eexists. split; [vm_compute; reflexivity|]. split; [reflexivity|].
  exact (detail_keys_unique Demo.rt "route.xml" _ eq_refl).
Defined.

Lemma details_from_in (rt : Runtime) (vps : list Element) :
  forall c w,
    In w (details_from rt c vps) -> exists c' vp, w = detail_of rt c' vp.
Proof.
  induction vps as [|vp vps IH]; intros c w Hin; [contradiction|].
  destruct Hin as [<-|Hin]; [eauto | now apply (IH (c + 1)%Z)].
Qed.

(** X14: no text cell of a main row or of a detail row of a processed
    document contains a tab, a line feed or a carriage return: the
    delimiter of the detail table and the line terminator never occur
    inside such a cell. *)
Theorem cells_without_line_breaks (rt : Runtime) (xml_path : string)
  (r : rows) (c : ascii) :
  process_single_xml rt xml_path = Ok r ->
  In c ["009"%char; "010"%char; "013"%char] ->
  Forall (fun row => Forall (fun x => no_char c x = true)
                       (main_row_texts row)) (main_rows r)
  /\ Forall (fun d => Forall (fun x => no_char c x = true)
                        (detail_row_texts d)) (detail_rows r).
Proof.
  intros Hr Hc.
  destruct (process_single_xml_inv rt xml_path r Hr)
    as (root & _ & Hrows & Hdet).
  split.
  - clear Hdet Hr.
    induction Hrows as [|pm row pms rws Hrow _ IH]; [constructor|].
    constructor; [|exact IH].
    destruct Hrow as [[_ ->]|(ri & dist & _ & _ & ->)];
      cbn [main_row_texts plain_row route_row MainRow.name
           MainRow.description MainRow.CreationTimeUTC
           MainRow.IsManuallyCorrected MainRow.RouteInfo_IgnoringRestrictions
           MainRow.RouteInfo_MapCorrectionInfo_DatasetInfo_ImageInfo_ImageName
           MainRow.RouteInfo_MapCorrectionInfo_DatasetInfo_ImageInfo_StartMapId];
      repeat constructor;
      first [now apply parse_text_no_line_break | reflexivity].
  - rewrite Hdet. apply Forall_forall. intros d Hd.
    destruct (detail_block_in rt _ _ _ Hd) as (i & pm & w & _ & Hw & ->).
    destruct (details_from_in rt _ _ _ Hw) as (c' & vp & ->).
    cbn. unfold position_text.
    repeat constructor; now apply parse_text_no_line_break.
Qed.

Lemma cells_without_line_breaks_witness :
  exists r,
    process_single_xml Demo.rt "route.xml" = Ok r
    /\ Forall (fun d => Forall (fun x => no_char "009"%char x = true)
                          (detail_row_texts d)) (detail_rows r).
Proof.
  eexists. split; [vm_compute; reflexivity|].
  exact (proj2 (cells_without_line_breaks Demo.rt "route.xml" _ "009"%char
                  eq_refl (or_introl eq_refl))).
Defined.

(** ** The waypoint field *)

Section AllChars.

Variable p : ascii -> bool.
Hypothesis escaped : forall a, all_chars p (escape_char a) = true.
Hypothesis punctuation : all_chars p (String dquote "[]{}:, ") = true.

Lemma all_chars_escape (s : string) : all_chars p (escape s) = true.
Proof.
  induction s as [|a s IH]; [reflexivity|].
  cbn [escape]. now rewrite all_chars_app, escaped, IH.
Qed.

Lemma all_chars_punctuation (s : string) :
  all_chars (fun c => negb (no_char c (String dquote "[]{}:, "))) s = true ->
  all_chars p s = true.
Proof.
  induction s as [|a s IH]; [reflexivity|].
  cbn [all_chars]. intros H. apply andb_true_iff in H as [Ha Hs].
  rewrite (IH Hs), andb_true_r.
  revert punctuation Ha. cbn [all_chars no_char].
  repeat match goal with
         | |- context [Ascii.eqb ?x a] =>
             destruct (Ascii.eqb_spec x a) as [<-|_]
         end;
    cbn [negb andb]; intros Hp Ha;
    repeat (apply andb_true_iff in Hp as [? Hp]); try assumption;
    discriminate Ha.
Qed.

Lemma all_chars_encode (s : string) :
  all_chars p (encode_basestring s) = true.
Proof.
  unfold encode_basestring. cbn [all_chars].
  rewrite all_chars_app, all_chars_escape. cbn [all_chars].
  revert punctuation. cbn [all_chars]. intros H.
  apply andb_true_iff in H as [-> _]. reflexivity.
Qed.

Lemma all_chars_join (sep : string) (l : list string) :
  all_chars p sep = true ->
  Forall (fun x => all_chars p x = true) l ->
  all_chars p (PyStr.join sep l) = true.
Proof.
  intros Hsep Hl. induction Hl as [|x l Hx Hl IH]; [reflexivity|].
  destruct l as [|y l]; [exact Hx|].
  change (PyStr.join sep (x :: y :: l))
    with (x +++ sep +++ PyStr.join sep (y :: l)).
  now rewrite !all_chars_app, Hx, Hsep, IH.
Qed.

Lemma all_chars_object (d : Summary) : all_chars p (object_text d) = true.
Proof.
  unfold object_text. rewrite !all_chars_app, all_chars_join.
  - now rewrite !all_chars_punctuation.
  - now apply all_chars_punctuation.
  - apply Forall_forall. intros x Hx. apply in_map_iff in Hx as [kv [<- _]].
    unfold member_text. rewrite !all_chars_app, !all_chars_encode.
    now rewrite all_chars_punctuation.
Qed.

Lemma all_chars_dumps (l : list Summary) :
  all_chars p (json_dumps (json_of_via_min l)) = true.
Proof.
  rewrite dumps_via_min, !all_chars_app, all_chars_join.
  - now rewrite !all_chars_punctuation.
  - now apply all_chars_punctuation.
  - apply Forall_forall. intros x Hx. apply in_map_iff in Hx as [d [<- _]].
    apply all_chars_object.
Qed.

End AllChars.

Lemma escape_char_printable (a : ascii) :
  all_chars printable (escape_char a) = true.
Proof.
  destruct a as [[|] [|] [|] [|] [|] [|] [|] [|]]; reflexivity.
Qed.

Lemma printable_no_char (c : ascii) (s : string) :
  printable c = false -> all_chars printable s = true -> no_char c s = true.
Proof.
  intros Hc. induction s as [|a s IH]; [reflexivity|].
  cbn [all_chars no_char]. intros H. apply andb_true_iff in H as [Ha Hs].
  rewrite (IH Hs), andb_true_r.
  destruct (Ascii.eqb_spec a c) as [->|_]; [congruence | reflexivity].
Qed.

(** X15: the waypoint field of any list of summaries has no control
    character: whatever the texts of the document hold, every control
    character is written as an escape, so that the field cannot break the
    line or the cell it is written in. *)
Theorem via_json_printable (l : list Summary) :
  all_chars printable (via_json_of l) = true
  /\ forall c, printable c = false -> no_char c (via_json_of l) = true.
Proof.
  assert (H : all_chars printable (via_json_of l) = true).
  { rewrite via_json_of_dumps.
    apply all_chars_dumps; [apply escape_char_printable | reflexivity]. }
  split; [exact H|]. intros c Hc. now apply printable_no_char.
Qed.

Lemma json_of_via_min_injective (l1 l2 : list Summary) :
  json_of_via_min l1 = json_of_via_min l2 -> l1 = l2.
Proof.
  unfold json_of_via_min. intros H. injection H as H.
  revert l2 H. induction l1 as [|d1 l1 IH]; intros [|d2 l2] H;
    try discriminate H; [reflexivity|].
  cbn [map] in H. injection H as Hd Hl. f_equal; [|now apply IH].
  clear -Hd. revert d2 Hd.
  induction d1 as [|[k1 v1] d1 IH]; intros [|[k2 v2] d2] H;
    try discriminate H; [reflexivity|].
  cbn [map fst snd] in H. injection H as -> -> Hd. f_equal. now apply IH.
Qed.

(** X16: the waypoint field loses nothing: read back it gives the list of
    summaries it was written from, so two lists with the same field are
    the same list. *)
Theorem via_json_faithful (l1 l2 : list Summary) :
  json_loads (via_json_of l1) = Some (json_of_via_min l1)
  /\ (via_json_of l1 = via_json_of l2 -> l1 = l2).
Proof.
  assert (H : forall l, json_loads (via_json_of l) = Some (json_of_via_min l))
    by (intros l; now rewrite via_json_of_dumps, json_loads_dumps).
  split; [apply H|]. intros Heq.
  apply json_of_via_min_injective.
  assert (Hs : Some (json_of_via_min l1) = Some (json_of_via_min l2))
    by (rewrite <- (H l1), <- (H l2), Heq; reflexivity).
  exact (f_equal (fun o => match o with Some v => v | None => JArr [] end) Hs).
Qed.

(** ** The list of input files *)

Lemma collect_input_files_eq (rt : Runtime) (args : Args) :
  collect_input_files rt args = uniq_loop rt (discovered_files rt args) [] [].
Proof.
  unfold collect_input_files, discovered_files.
  destruct (dir args) as [base|]; [|now rewrite app_nil_r].
  destruct (PyStr.is_empty base); [now rewrite app_nil_r|].
  now destruct (recursive args).
Qed.

Lemma filter_filter {A : Type} (f g : A -> bool) (l : list A) :
  filter f (filter g l) = filter (fun x => g x && f x) l.
Proof.
  induction l as [|a l IH]; [reflexivity|].
  cbn [filter]. destruct (g a); cbn [filter andb]; [|exact IH].
  destruct (f a); now rewrite IH.
Qed.

Lemma uniq_loop_first_occurrences (rt : Runtime) (fs : list string) :
  forall seen uniq,
    uniq_loop rt fs seen uniq
    = uniq
      ++ filter (fun y => negb (existsb (String.eqb y) seen))
           (first_occurrences (map (path_str rt) fs)).
Proof.
  induction fs as [|f fs IH]; intros seen uniq;
    [cbn; now rewrite app_nil_r|].
  cbn [uniq_loop map first_occurrences filter].
  rewrite filter_filter.
  destruct (existsb (String.eqb (path_str rt f)) seen) eqn:Hseen.
  - cbn [negb]. rewrite IH. f_equal. apply filter_ext. intros y.
    destruct (String.eqb_spec y (path_str rt f)) as [->|_];
      [now rewrite Hseen | reflexivity].
  - cbn [negb]. rewrite IH, <- app_assoc. cbn [app]. do 2 f_equal.
    apply filter_ext. intros y. cbn [existsb]. now rewrite negb_orb.
Qed.

Lemma first_occurrences_in (l : list string) (x : string) :
  In x (first_occurrences l) <-> In x l.
Proof.
  induction l as [|a l IH]; [reflexivity|].
  cbn [first_occurrences In]. rewrite filter_In, IH, negb_true_iff.
  rewrite String.eqb_neq. split.
  - intros [H|[H _]]; [now left | now right].
  - intros [H|H]; [now left|].
    destruct (String.eqb_spec x a) as [->|Hne]; [now left | now right].
Qed.

Lemma first_occurrences_NoDup (l : list string) :
  NoDup (first_occurrences l).
Proof.
  induction l as [|a l IH]; [constructor|].
  cbn [first_occurrences]. constructor; [|now apply NoDup_filter].
  rewrite filter_In, String.eqb_refl. now intros [_ H].
Qed.

(** X17: the list of input files holds the path of every discovered file
    exactly once: it has no duplicate, a path is in it exactly when it is
    the normalized path of a file that a pattern or the directory scan
    gave, and it is empty only when nothing was discovered. *)
Theorem collect_input_files_once (rt : Runtime) (args : Args) :
  NoDup (collect_input_files rt args)
  /\ (forall p,
        In p (collect_input_files rt args)
        <-> exists f, In f (discovered_files rt args) /\ path_str rt f = p)
  /\ (collect_input_files rt args = [] <-> discovered_files rt args = []).
Proof.
  rewrite collect_input_files_eq, uniq_loop_first_occurrences.
  cbn [app existsb negb].
  assert (Hall : forall l : list string, filter (fun _ => true) l = l).
  { induction l as [|a l IH]; [reflexivity | cbn; now rewrite IH]. }
  rewrite Hall. split; [apply first_occurrences_NoDup|]. split.
  - intros p. rewrite first_occurrences_in, in_map_iff.
    split; intros (f & H1 & H2); exists f; now split.
  - destruct (discovered_files rt args); cbn; split; intros H;
      try reflexivity; discriminate H.
Qed.

(** X18: the input files are processed in the order of discovery: the
    list is the normalized paths of the discovered files, each kept at
    its first occurrence. *)
Theorem collect_input_files_order (rt : Runtime) (args : Args) :
  collect_input_files rt args
  = first_occurrences (map (path_str rt) (discovered_files rt args)).
Proof.
  rewrite collect_input_files_eq, uniq_loop_first_occurrences.
  cbn [app existsb negb].
  induction (first_occurrences (map (path_str rt) (discovered_files rt args)))
    as [|a l IH]; [reflexivity | cbn; now rewrite IH].
Qed.

(** ** The loop over the files, in closed form *)

Lemma file_step_eq (rt : Runtime) (acc : rows) (xml_path : string)
  (w : World) :
  file_step rt acc xml_path w
  = match file_uncaught rt xml_path with
    | Some e => (Raise e, w)
    | None =>
        (Ok {| main_rows := main_rows acc ++ main_rows (file_rows rt xml_path);
               detail_rows :=
                 detail_rows acc ++ detail_rows (file_rows rt xml_path) |},
         {| stdout := stdout w ++ file_warning rt xml_path;
            files := files w |})
    end.
Proof.
  unfold file_step, file_uncaught, file_rows, file_warning.
  destruct (process_single_xml rt xml_path) as [r|[]]; destruct acc, w;
    cbn; rewrite ?app_nil_r; reflexivity.
Qed.

(** X19: when no input file raises an exception that the loop does not
    catch, the loop ends with the rows of the files in the order of the
    list, a file that was skipped giving none, and has printed one warning
    per skipped file, in that order; it creates no file. *)
Theorem files_loop_gathers (rt : Runtime) (l : list string) (acc : rows)
  (w : World) :
  Forall (fun p => file_uncaught rt p = None) l ->
  files_loop rt l acc w
  = (Ok {| main_rows :=
             main_rows acc ++ flat_map (fun p => main_rows (file_rows rt p)) l;
           detail_rows :=
             detail_rows acc
             ++ flat_map (fun p => detail_rows (file_rows rt p)) l |},
     {| stdout := stdout w ++ flat_map (file_warning rt) l;
        files := files w |}).
Proof.
  intros Hl. revert acc w.
  induction Hl as [|p l Hp _ IH]; intros acc w.
  - destruct acc, w. cbn. now rewrite !app_nil_r.
  - cbn [files_loop flat_map]. rewrite file_step_eq, Hp, IH.
    cbn [main_rows detail_rows stdout files]. now rewrite <- !app_assoc.
Qed.

Lemma files_loop_gathers_witness :
  files_loop Demo.rt ["plain.xml"; "locked.xml"; "route.xml"] no_rows
    Demo.empty_world
  = (Ok {| main_rows :=
             main_rows (file_rows Demo.rt "plain.xml")
             ++ main_rows (file_rows Demo.rt "route.xml");
           detail_rows := detail_rows (file_rows Demo.rt "route.xml") |},
     {| stdout := [WarnRead "locked.xml" "Permission denied"];
        files := [] |}).
Proof.
  rewrite (files_loop_gathers Demo.rt
             ["plain.xml"; "locked.xml"; "route.xml"] no_rows
             Demo.empty_world).
  - vm_compute. reflexivity.
  - repeat constructor.
Defined.

(** X20: the first input file that raises an exception other than a parse
    error or a read error ends the loop with that exception: the files
    after it are not processed, and the rows gathered before it are given
    up. *)
Theorem files_loop_stops (rt : Runtime) (l1 : list string) (p : string)
  (l2 : list string) (e : exn) (acc : rows) (w : World) :
  Forall (fun q => file_uncaught rt q = None) l1 ->
  file_uncaught rt p = Some e ->
  files_loop rt (l1 ++ p :: l2) acc w
  = (Raise e,
     {| stdout := stdout w ++ flat_map (file_warning rt) l1;
        files := files w |}).
Proof.
  intros Hl1 Hp. revert acc w.
  induction Hl1 as [|q l1 Hq _ IH]; intros acc w.
  - cbn [app files_loop flat_map]. rewrite file_step_eq, Hp.
    destruct w. cbn. now rewrite app_nil_r.
  - cbn [app files_loop flat_map]. rewrite file_step_eq, Hq, IH.
    cbn [stdout files]. now rewrite <- app_assoc.
Qed.

Lemma files_loop_stops_witness :
  files_loop Demo.rt ["broken.xml"; "inf.xml"; "plain.xml"] no_rows
    Demo.empty_world
  = (Raise Demo.domain_error,
     {| stdout := [WarnParse "broken.xml" "syntax error: line 1, column 0"];
        files := [] |}).
Proof.
  apply (files_loop_stops Demo.rt ["broken.xml"] "inf.xml" ["plain.xml"]
           Demo.domain_error no_rows Demo.empty_world).
  - repeat constructor.
  - reflexivity.
Defined.

(** ** The files of a run *)

Lemma strip_crlf_absent (s : string) :
  no_char "013"%char s = true -> no_char "010"%char s = true ->
  strip_crlf s = s.
Proof.
  intros Hcr Hlf. unfold strip_crlf.
  now rewrite (replace_absent "013"%char), (replace_absent "010"%char).
Qed.

Lemma strip_row_main_row_for (rt : Runtime) (pm : Element) (row : MainRow.t) :
  main_row_for rt pm row -> strip_row row = row.
Proof.
  intros [[_ ->]|(ri & dist & _ & _ & ->)]; [reflexivity|].
  unfold strip_row, route_row.
  cbn [MainRow.name MainRow.description MainRow.CreationTimeUTC
       MainRow.IsManuallyCorrected MainRow.TotalDistanceKm
       MainRow.RouteInfo_IgnoringRestrictions
       MainRow.RouteInfo_MapCorrectionInfo_DatasetInfo_ImageInfo_ImageName
       MainRow.RouteInfo_MapCorrectionInfo_DatasetInfo_ImageInfo_StartMapId
       MainRow.RouteInfo_ViaPoints_NumVia
       MainRow.RouteInfo_ViaPoints_ViaPoint].
  rewrite strip_crlf_absent; [reflexivity| |];
    rewrite via_json_of_dumps; apply no_char_dumps;
    first [apply escape_char_no_cr | apply escape_char_no_lf | reflexivity].
Qed.

Lemma file_rows_stripped (rt : Runtime) (xml_path : string) :
  map strip_row (main_rows (file_rows rt xml_path))
  = main_rows (file_rows rt xml_path).
Proof.
  unfold file_rows.
  destruct (process_single_xml rt xml_path) as [r|e] eqn:Hr; [|reflexivity].
  destruct (process_single_xml_inv rt xml_path r Hr) as (root & _ & Hrows & _).
  induction Hrows as [|pm row pms rws Hrow _ IH]; [reflexivity|].
  cbn [map]. now rewrite IH, (strip_row_main_row_for rt pm row Hrow).
Qed.

Lemma files_loop_stripped (rt : Runtime) (l : list string) :
  forall acc w acc' w',
    files_loop rt l acc w = (Ok acc', w') ->
    map strip_row (main_rows acc) = main_rows acc ->
    map strip_row (main_rows acc') = main_rows acc'.
Proof.
  induction l as [|p l IH]; intros acc w acc' w' Hloop Hacc.
  - injection Hloop as <- _. exact Hacc.
  - cbn [files_loop] in Hloop. rewrite file_step_eq in Hloop.
    destruct (file_uncaught rt p); [discriminate Hloop|].
    apply (IH _ _ _ _ Hloop). cbn [main_rows].
    now rewrite map_app, Hacc, file_rows_stripped.
Qed.

(** X21: what a finished run has written.  The main table holds the rows
    gathered from the input files, unchanged: removing carriage returns
    and line feeds from the waypoint field once more alters none of them.
    The detail table is created when it is requested and there is a detail
    row, and then it holds the detail rows gathered. *)
Theorem finished_run_files (rt : Runtime) (args : Args) (w : World) :
  fst (main rt args w) = Finished ->
  exists acc wl,
    files_loop rt (collect_input_files rt args) no_rows w = (Ok acc, wl)
    /\ files (snd (main rt args w))
       = files w
         ++ (output_csv args, MainCsv (main_rows acc))
            :: match detail_tsv args, detail_rows acc with
               | Some p, _ :: _ => [(p, DetailTsv (detail_rows acc))]
               | _, _ => []
               end.
Proof.
  unfold main, no_rows.
  destruct (collect_input_files rt args) as [|f fs]; [discriminate|].
  pose proof (files_loop_files rt (f :: fs)
                {| main_rows := []; detail_rows := [] |} w) as Hfiles.
  pose proof (files_loop_stripped rt (f :: fs)
                {| main_rows := []; detail_rows := [] |} w) as Hstrip.
  destruct (files_loop rt (f :: fs) _ w) as [[acc|e] wl]; [|discriminate].
  cbn [snd] in Hfiles. specialize (Hstrip acc wl eq_refl eq_refl).
  destruct (main_rows acc) as [|r rs] eqn:Hrows; [discriminate|].
  unfold write_main_csv, write_detail_tsv.
  destruct (open_w rt (output_csv args)) as [[]|e]; [|discriminate].
  intros Hfin. exists acc, wl. rewrite Hrows.
  split; [reflexivity|].
  destruct (detail_tsv args) as [p|].
  - destruct (detail_rows acc) as [|d ds].
    + cbn -[map]. now rewrite Hfiles, Hstrip.
    + destruct (open_w rt p) as [[]|e]; [|discriminate Hfin].
      cbn -[map]. now rewrite Hfiles, Hstrip, <- !app_assoc.
  - cbn -[map]. now rewrite Hfiles, Hstrip.
Qed.

Lemma finished_run_files_witness :
  exists r1 r2,
    files
      (snd (main Demo.rt
              (Demo.args ["plain.xml"; "route.xml"] "out.csv" (Some "d.tsv"))
              Demo.empty_world))
    = [("out.csv", MainCsv [r1; r2]);
       ("d.tsv", DetailTsv (detail_rows (file_rows Demo.rt "route.xml")))].
Proof.
  destruct (finished_run_files Demo.rt
              (Demo.args ["plain.xml"; "route.xml"] "out.csv" (Some "d.tsv"))
              Demo.empty_world eq_refl) as (acc & wl & Hloop & Hfiles).
  vm_compute in Hloop. injection Hloop as <- _.
  do 2 eexists. rewrite Hfiles. vm_compute. reflexivity.
Defined.

(** X22: a run finishes exactly when there is an input file, no file
    raises an uncaught exception, a main row was gathered, the main table
    can be created and, if a detail table is requested and there is a
    detail row, the detail table can be created too.  A detail path that
    cannot be opened does no harm when there is no detail row. *)
Theorem main_finishes (rt : Runtime) (args : Args) (w : World) :
  fst (main rt args w) = Finished
  <-> collect_input_files rt args <> []
      /\ exists acc wl,
           files_loop rt (collect_input_files rt args) no_rows w
           = (Ok acc, wl)
           /\ main_rows acc <> []
           /\ open_w rt (output_csv args) = Ok tt
           /\ (forall p,
                 detail_tsv args = Some p -> detail_rows acc <> [] ->
                 open_w rt p = Ok tt).
Proof.
  unfold main, no_rows.
  destruct (collect_input_files rt args) as [|f fs].
  - split; [discriminate | now intros [H _]].
  - destruct (files_loop rt (f :: fs) _ w) as [[acc|e] wl].
    2:{ split; [discriminate|].
        intros [_ (acc & wl' & H & _)]. discriminate H. }
    destruct (main_rows acc) as [|r rs] eqn:Hrows.
    { split; [discriminate|].
      intros [_ (acc' & wl' & H & Hne & _)]. injection H as <- _.
      now rewrite Hrows in Hne. }
    unfold write_main_csv, write_detail_tsv.
    destruct (open_w rt (output_csv args)) as [[]|e] eqn:Hout.
    2:{ split; [discriminate|].
        intros [_ (acc' & wl' & _ & _ & H & _)]. discriminate H. }
    destruct (detail_tsv args) as [p|].
    + destruct (detail_rows acc) as [|d ds] eqn:Hdet.
      * split; [|reflexivity]. intros _. split; [discriminate|].
        exists acc, wl. rewrite Hrows, Hdet.
        repeat split; try discriminate. intros p' _ H. now destruct H.
      * destruct (open_w rt p) as [[]|e] eqn:Hp.
        -- split; [|reflexivity]. intros _. split; [discriminate|].
           exists acc, wl. rewrite Hrows.
           repeat split; try discriminate. intros p' Hp' _.
           injection Hp' as <-. exact Hp.
        -- split; [discriminate|].
           intros [_ (acc' & wl' & H & _ & _ & Hd)]. injection H as <- _.
           rewrite Hdet in Hd.
           specialize (Hd p eq_refl ltac:(discriminate)). congruence.
    + split; [|reflexivity]. intros _. split; [discriminate|].
      exists acc, wl. rewrite Hrows.
      repeat split; try discriminate.
Qed.

(** X23: a run that does not finish leaves no output file, except that
    the main table stays when it is the detail table that cannot be
    created.  No run creates a file at another path than its two output
    paths. *)
Theorem unfinished_run_files (rt : Runtime) (args : Args) (w : World) :
  (exists new,
     files (snd (main rt args w)) = files w ++ new
     /\ forall path content,
          In (path, content) new ->
          path = output_csv args \/ detail_tsv args = Some path)
  /\ (fst (main rt args w) <> Finished ->
      files (snd (main rt args w)) = files w
      \/ exists written p e,
           files (snd (main rt args w))
           = files w ++ [(output_csv args, MainCsv written)]
           /\ detail_tsv args = Some p
           /\ open_w rt p = Raise e).
Proof.
  unfold main, no_rows.
  destruct (collect_input_files rt args) as [|f fs].
  { split; [exists []; rewrite app_nil_r; now split | now left]. }
  pose proof (files_loop_files rt (f :: fs)
                {| main_rows := []; detail_rows := [] |} w) as Hfiles.
  destruct (files_loop rt (f :: fs) _ w) as [[acc|e] wl]; cbn [snd] in Hfiles.
  2:{ cbn. rewrite Hfiles.
      split; [exists []; rewrite app_nil_r; now split | now left]. }
  destruct (main_rows acc) as [|r rs].
  { cbn. rewrite Hfiles.
    split; [exists []; rewrite app_nil_r; now split | now left]. }
  unfold write_main_csv, write_detail_tsv.
  destruct (open_w rt (output_csv args)) as [[]|e].
  2:{ cbn. rewrite Hfiles.
      split; [exists []; rewrite app_nil_r; now split | now left]. }
  destruct (detail_tsv args) as [p|].
  - destruct (detail_rows acc) as [|d ds].
    + cbn. rewrite Hfiles. split; [|now intros H].
      eexists. split; [reflexivity|]. intros path content [H|[]].
      injection H as <- _. now left.
    + destruct (open_w rt p) as [[]|e] eqn:Hp.
      * cbn. rewrite Hfiles, <- app_assoc. split; [|now intros H].
        eexists. split; [reflexivity|]. intros path content [H|[H|[]]];
          injection H as <- _; [now left | now right].
      * cbn. rewrite Hfiles. split.
        -- eexists. split; [reflexivity|]. intros path content [H|[]].
           injection H as <- _. now left.
        -- intros _. right. now exists (map strip_row (r :: rs)), p, e.
  - cbn. rewrite Hfiles. split; [|now intros H].
    eexists. split; [reflexivity|]. intros path content [H|[]].
    injection H as <- _. now left.
Qed.

(** The loop over files that are skipped or hold no placemark leaves the
    main rows as they were. *)
Lemma files_loop_without_rows (rt : Runtime) (l : list string) :
  Forall (fun p => file_uncaught rt p = None
                   /\ main_rows (file_rows rt p) = []) l ->
  forall acc w,
    files_loop rt l acc w
    = (Ok {| main_rows := main_rows acc;
             detail_rows :=
               detail_rows acc
               ++ flat_map (fun p => detail_rows (file_rows rt p)) l |},
       {| stdout := stdout w ++ flat_map (file_warning rt) l;
          files := files w |}).
Proof.
  induction 1 as [|p l [Hp Hrows] _ IH]; intros acc w.
  - destruct acc, w. cbn. now rewrite !app_nil_r.
  - cbn [files_loop flat_map]. rewrite file_step_eq, Hp, IH.
    cbn [main_rows detail_rows stdout files].
    now rewrite Hrows, app_nil_r, <- !app_assoc.
Qed.

(** X24: when every input file is skipped or holds no placemark, the run
    prints the warnings of the skipped files and then stops with the
    message that there is no main row; it creates no file. *)
Theorem main_without_rows (rt : Runtime) (args : Args) (w : World) :
  collect_input_files rt args <> [] ->
  Forall (fun p => file_uncaught rt p = None
                   /\ main_rows (file_rows rt p) = [])
    (collect_input_files rt args) ->
  main rt args w
  = (Exited NoMainRows,
     {| stdout :=
          stdout w ++ flat_map (file_warning rt) (collect_input_files rt args);
        files := files w |}).
Proof.
  intros Hne Hall. unfold main.
  destruct (collect_input_files rt args) as [|f fs] eqn:Hfs;
    [now destruct Hne|].
  rewrite <- Hfs in *.
  now rewrite (files_loop_without_rows rt _ Hall).
Qed.

Lemma main_without_rows_witness :
  main Demo.rt (Demo.args ["broken.xml"; "locked.xml"] "out.csv" None)
    Demo.empty_world
  = (Exited NoMainRows,
     {| stdout := [WarnParse "broken.xml" "syntax error: line 1, column 0";
                   WarnRead "locked.xml" "Permission denied"];
        files := [] |}).
Proof.
  apply (main_without_rows Demo.rt
           (Demo.args ["broken.xml"; "locked.xml"] "out.csv" None)
           Demo.empty_world).
  - discriminate.
  - repeat constructor.
Defined.

(* ------------------------------------------------------------------ *)
(** ** Single placemarks within a processed document *)

(** The main row of the placemark that follows the placemarks [pre] in a
    processed document stands at position [length pre]. *)
Lemma main_row_at (rt : Runtime) (xml_path : string) (root : Element)
  (pre : list Element) (pm : Element) (post : list Element) (r : rows) :
  et_parse rt xml_path = Ok root ->
  findall [Descendant "Placemark"] root = pre ++ pm :: post ->
  process_single_xml rt xml_path = Ok r ->
  exists row,
    nth_error (main_rows r) (List.length pre) = Some row
    /\ main_row_for rt pm row.
Proof.
  intros Hp Hpms Hr.
  destruct (process_single_xml_inv rt xml_path r Hr)
    as (root' & Hp' & Hrows & _).
  rewrite Hp in Hp'. injection Hp' as <-. rewrite Hpms in Hrows.
  apply (Forall2_nth_error _ _ _ Hrows).
  rewrite nth_error_app2 by apply Nat.le_refl.
  now rewrite Nat.sub_diag.
Qed.

Lemma nth_error_middle {A : Type} (pre : list A) (x : A) (post : list A)
  (y : A) :
  nth_error (pre ++ x :: post) (List.length pre) = Some y -> y = x.
Proof.
  rewrite nth_error_app2 by apply Nat.le_refl.
  rewrite Nat.sub_diag. cbn. congruence.
Qed.

(** C2: a placemark without a [RouteInfo] child does not make
    [process_single_xml] raise: the document is processed whenever the
    distances of the other placemarks can be computed.  In the result of
    [process_single_xml] the main row at the position of that placemark is
    complete: it has the four texts of the placemark, a distance of 0.0,
    empty route-info texts, a count of 0 and the text "[]" for the
    waypoints; and no detail row carries the index of that placemark. *)
Theorem no_routeinfo_record (rt : Runtime) (xml_path : string)
  (root : Element) (pre : list Element) (pm : Element)
  (post : list Element) :
  et_parse rt xml_path = Ok root ->
  findall [Descendant "Placemark"] root = pre ++ pm :: post ->
  find [Child "RouteInfo"] pm = None ->
  (Forall (distance_defined rt) (pre ++ post) ->
   exists r, process_single_xml rt xml_path = Ok r)
  /\ forall r,
       process_single_xml rt xml_path = Ok r ->
       (exists row,
          nth_error (main_rows r) (List.length pre) = Some row
          /\ MainRow.name row = parse_text pm [Child "name"] ""
          /\ MainRow.description row
             = parse_text pm [Child "description"] ""
          /\ MainRow.CreationTimeUTC row
             = parse_text pm [Child "CreationTimeUTC"] ""
          /\ MainRow.IsManuallyCorrected row
             = parse_text pm [Child "IsManuallyCorrected"] ""
          /\ MainRow.TotalDistanceKm row = 0%float
          /\ MainRow.RouteInfo_IgnoringRestrictions row = ""
          /\ MainRow.RouteInfo_MapCorrectionInfo_DatasetInfo_ImageInfo_ImageName
               row = ""
          /\ MainRow.RouteInfo_MapCorrectionInfo_DatasetInfo_ImageInfo_StartMapId
               row = ""
          /\ MainRow.RouteInfo_ViaPoints_NumVia row = 0%Z
          /\ MainRow.RouteInfo_ViaPoints_ViaPoint row = "[]")
       /\ List.length (main_rows r) = List.length (pre ++ pm :: post)
       /\ Forall
            (fun d =>
               DetailRow.placemark_index d
               <> (Z.of_nat (List.length pre) + 1)%Z)
            (detail_rows r).
Proof.
  intros Hp Hpms Hnone. split.
  - intros Hdef. unfold process_single_xml. rewrite Hp. cbn [bind].
    rewrite Hpms. apply placemarks_loop_defined.
    apply Forall_app in Hdef as [Hpre Hpost].
    apply Forall_app. split; [exact Hpre|].
    constructor; [|exact Hpost].
    intros routeinfo Hri. congruence.
  - intros r Hr. split; [|split].
    + destruct (main_row_at rt xml_path root pre pm post r Hp Hpms Hr)
        as (row & Hnth & [[_ ->]|(ri & dist & Hri & _)]); [|congruence].
      exists (plain_row pm). split; [exact Hnth|]. cbn. repeat split.
    + destruct (process_single_xml_inv rt xml_path r Hr)
        as (root' & Hp' & Hrows & _).
      rewrite Hp in Hp'. injection Hp' as <-. rewrite Hpms in Hrows.
      symmetry. exact (Forall2_length Hrows).
    + destruct (process_single_xml_inv rt xml_path r Hr)
        as (root' & Hp' & _ & Hdet).
      rewrite Hp in Hp'. injection Hp' as <-. rewrite Hpms in Hdet.
      rewrite Hdet. apply Forall_forall. intros d Hin.
      destruct (detail_block_in rt _ _ _ Hin) as (i & pm' & w & Hnth & Hw & ->).
      cbn [detail_row DetailRow.placemark_index]. intros Hidx.
      assert (Hi : i = List.length pre) by lia. subst i.
      apply nth_error_middle in Hnth. subst pm'.
      unfold waypoints_of in Hw. rewrite Hnone in Hw. exact Hw.
Qed.

(** The document [mixed.xml] has the placemark "depot", without
    [RouteInfo], between two routes: it is processed, the second of its
    three main rows is the one of "depot", and no detail row has the
    index 2. *)
Lemma no_routeinfo_record_witness :
  exists r,
    process_single_xml Demo.rt "mixed.xml" = Ok r
    /\ List.length (main_rows r) = 3
    /\ (exists row,
          nth_error (main_rows r) 1 = Some row
          /\ MainRow.name row = "depot"
          /\ MainRow.TotalDistanceKm row = 0%float
          /\ MainRow.RouteInfo_ViaPoints_NumVia row = 0%Z
          /\ MainRow.RouteInfo_ViaPoints_ViaPoint row = "[]")
    /\ Forall (fun d => DetailRow.placemark_index d <> 2%Z) (detail_rows r).
Proof.
  destruct (no_routeinfo_record Demo.rt "mixed.xml" Demo.doc_mixed
              [Demo.short] Demo.depot [Demo.north] eq_refl eq_refl eq_refl)
    as [Hruns Hrow].
  destruct Hruns as [r Hr].
  { repeat constructor; intros routeinfo Hri; vm_compute in Hri;
      injection Hri as <-; eexists; vm_compute; reflexivity. }
  exists r. split; [exact Hr|].
  destruct (Hrow r Hr)
    as ((row & Hnth & Hname & _ & _ & _ & Hdist & _ & _ & _ & Hnum & Hvia)
        & Hlen & Hdet).
  split; [exact Hlen|]. split; [|exact Hdet].
  exists row. repeat split; assumption.
Defined.

(** C3: for a placemark with a [RouteInfo], the declared count is the
    integer read from the text at [./ViaPoints/NumVia]: the value of that
    text when it is numeric, 0 when it is not numeric, and 0 when the
    element is missing.  The count written to the main row of the
    placemark, both by its turn of the loop and in the result of
    [process_single_xml], is the declared count when that is not zero, and
    the number of waypoint records extracted for the route otherwise. *)
Theorem num_via_written (rt : Runtime) (pm routeinfo : Element) :
  find [Child "RouteInfo"] pm = Some routeinfo ->
  let txt := parse_text routeinfo [Child "ViaPoints"; Child "NumVia"] "" in
  let declared :=
    parse_int rt routeinfo [Child "ViaPoints"; Child "NumVia"] 0%Z in
  let extracted := snd (fst (parse_via_points rt routeinfo)) in
  let written (row : MainRow.t) :=
    (declared <> 0%Z -> MainRow.RouteInfo_ViaPoints_NumVia row = declared)
    /\ (declared = 0%Z ->
        MainRow.RouteInfo_ViaPoints_NumVia row
        = Z.of_nat (List.length extracted)) in
  (forall z, py_int (max_str_digits rt) txt = Some z -> declared = z)
  /\ (py_int (max_str_digits rt) txt = None -> declared = 0%Z)
  /\ (find [Child "ViaPoints"; Child "NumVia"] routeinfo = None ->
      declared = 0%Z)
  /\ (forall st idx st',
        placemark_step rt st idx pm = Ok st' ->
        exists row, main_rows st' = main_rows st ++ [row] /\ written row)
  /\ (forall xml_path root pre post r,
        et_parse rt xml_path = Ok root ->
        findall [Descendant "Placemark"] root = pre ++ pm :: post ->
        process_single_xml rt xml_path = Ok r ->
        exists row,
          nth_error (main_rows r) (List.length pre) = Some row
          /\ written row).
Proof.
  intros Hri txt declared extracted written.
  assert (Hwritten : forall dist, written (route_row rt pm routeinfo dist)).
  { intros dist. unfold written, extracted.
    rewrite parse_via_points_eq. cbn [fst snd].
    rewrite details_from_length.
    cbn [route_row MainRow.RouteInfo_ViaPoints_NumVia]. fold declared.
    destruct (Z.eqb_spec declared 0) as [Hz|Hnz]; split; intros H;
      congruence. }
  split; [|split; [|split; [|split]]].
  - intros z Hz. unfold declared, parse_int. fold txt. now rewrite Hz.
  - apply parse_int_not_numeric.
  - apply parse_int_missing.
  - intros st idx st' Hstep.
    rewrite (placemark_step_route rt st idx pm routeinfo Hri) in Hstep.
    unfold bind in Hstep.
    destruct (total_distance_km rt _) as [dist|e]; [|discriminate Hstep].
    injection Hstep as <-. cbn [main_rows].
    exists (route_row rt pm routeinfo dist). split; [reflexivity|].
    apply Hwritten.
  - intros xml_path root pre post r Hp Hpms Hr.
    destruct (main_row_at rt xml_path root pre pm post r Hp Hpms Hr)
      as (row & Hnth & [[Hnone _]|(ri & dist & Hri' & _ & ->)]);
      [congruence|].
    rewrite Hri in Hri'. injection Hri' as <-.
    exists (route_row rt pm routeinfo dist). split; [exact Hnth|].
    apply Hwritten.
Qed.

(** The route "short" declares 7 waypoints and has one: the declared
    count is 7, and 7 is written, by the turn of the loop and to the first
    main row of the document [mixed.xml].  The route "north" of the same
    document declares the text "x" and has three waypoints: 3 is written
    to the third main row. *)
Lemma num_via_written_witness :
  parse_int Demo.rt Demo.short_info [Child "ViaPoints"; Child "NumVia"] 0%Z
  = 7%Z
  /\ (exists st' row,
        placemark_step Demo.rt no_rows 1 Demo.short = Ok st'
        /\ main_rows st' = [row]
        /\ MainRow.RouteInfo_ViaPoints_NumVia row = 7%Z)
  /\ exists r row row',
       process_single_xml Demo.rt "mixed.xml" = Ok r
       /\ nth_error (main_rows r) 0 = Some row
       /\ MainRow.RouteInfo_ViaPoints_NumVia row = 7%Z
       /\ nth_error (main_rows r) 2 = Some row'
       /\ MainRow.RouteInfo_ViaPoints_NumVia row' = 3%Z.
Proof.
  destruct (num_via_written Demo.rt Demo.short Demo.short_info eq_refl)
    as (Hnum & _ & _ & Hstep & Hdoc).
  destruct (num_via_written Demo.rt Demo.north Demo.north_info eq_refl)
    as (_ & Hnot & _ & _ & Hdoc').
  pose proof (Hnum 7%Z eq_refl) as Hseven.
  pose proof (Hnot eq_refl) as Hzero.
  split; [exact Hseven|]. split.
  - destruct (Hstep no_rows 1%Z _ eq_refl) as (row & Hrows & Hdecl & _).
    eexists. exists row. split; [reflexivity|]. split; [exact Hrows|].
    rewrite Hdecl; [exact Hseven|]. rewrite Hseven. discriminate.
  - destruct (Hdoc "mixed.xml" Demo.doc_mixed [] [Demo.depot; Demo.north] _
                eq_refl eq_refl eq_refl) as (row & Hnth & Hdecl & _).
    destruct (Hdoc' "mixed.xml" Demo.doc_mixed [Demo.short; Demo.depot] [] _
                eq_refl eq_refl eq_refl) as (row' & Hnth' & _ & Hfall).
    eexists. exists row, row'. split; [reflexivity|].
    split; [exact Hnth|]. split.
    + rewrite Hdecl; [exact Hseven|]. rewrite Hseven. discriminate.
    + split; [exact Hnth'|]. rewrite Hfall; [reflexivity | exact Hzero].
Defined.
